(** * The stock-data pipeline: fetch, parse, store, run

    A shallow embedding of [scripts/fetch_stock_data.py] (class
    [StockDataFetcher] and the runner [fetch_and_process_stock_data]) and of
    the table declared in [dags/stock_data_pipeline.py], followed by the
    properties of the pipeline.

    Layout:
    - [Py]       the Python values the code handles (decoded JSON), the
                 exceptions it can meet, and the builtins it calls
                 ([dict.get], [in], [float], [int], [datetime.strptime],
                 [str.strip], [str.upper]);
    - [Pipeline] the log records, the provider's answers, the table and the
                 four functions of the source;
    - [Dag]      the arguments that the scheduled task passes to the runner;
    - [Props]    the vocabulary of the statements;
    - [Samples]  concrete responses, sessions and runs;
    - the lemmas and theorems, and their instances on the samples. *)

From Stdlib Require Import String Ascii List ZArith Bool Lia Arith.
From Stdlib Require Import SpecFloat.
Import ListNotations.

Local Open Scope string_scope.
Local Open Scope Z_scope.

(* ===================================================================== *)
(** * Python values, exceptions and builtins                              *)
(* ===================================================================== *)

Module Py.

(** The exception classes that the code under study can meet. [Exception]
    is their common ancestor; [except (ValueError, TypeError)] and
    [except Exception] are handlers over this type. *)
Inductive exn : Type :=
| ValueError
| TypeError
| AttributeError
| OverflowError
| KeyError
| RecursionError
| RequestException      (* requests.exceptions.RequestException and subclasses *)
| DatabaseError         (* any exception of the database driver *)
| OtherException (class_name : string).
                        (* a subclass of [Exception] that derives from none
                           of the classes above *)

(** Result of evaluating an expression that may raise. *)
Inductive res (A : Type) : Type :=
| Ok (a : A)
| Raise (e : exn).
Arguments Ok {A} a.
Arguments Raise {A} e.

Definition bind {A B : Type} (m : res A) (k : A -> res B) : res B :=
  match m with
  | Ok a => k a
  | Raise e => Raise e
  end.

Declare Scope py_scope.
Delimit Scope py_scope with py.
Notation "x <- m ;; k" := (bind m (fun x => k))
  (at level 61, m at next level, right associativity) : py_scope.

(** A Python [float] is an IEEE 754 binary64 value. *)
Definition pyfloat : Type := spec_float.
Definition prec64 : Z := 53.
Definition emax64 : Z := 1024.

(** The objects [json.loads] produces. A [dict] keeps insertion order, so
    it is an association list; its keys are strings. *)
#[warnings="-register-all"]
Inductive value : Type :=
| VNone
| VBool (b : bool)
| VInt (n : Z)
| VFloat (f : pyfloat)
| VStr (s : string)
| VList (l : list value)
| VDict (d : list (string * value)).

(** ** Dictionaries *)

Fixpoint lookup (k : string) (d : list (string * value)) : option value :=
  match d with
  | [] => None
  | (k', v) :: d' => if String.eqb k k' then Some v else lookup k d'
  end.

Definition has_key (k : string) (d : list (string * value)) : bool :=
  match lookup k d with Some _ => true | None => false end.

(** [o.get(k, default)]: only a [dict] has the method. *)
Definition get (o : value) (k : string) (default : value) : res value :=
  match o with
  | VDict d => Ok (match lookup k d with Some v => v | None => default end)
  | _ => Raise AttributeError
  end.

(** [o.items()] *)
Definition items (o : value) : res (list (string * value)) :=
  match o with
  | VDict d => Ok d
  | _ => Raise AttributeError
  end.

(** Truth value of an object, as [if not o] tests it. *)
Definition truthy (o : value) : bool :=
  match o with
  | VNone => false
  | VBool b => b
  | VInt n => negb (n =? 0)
  | VFloat f =>
      match f with
      | S754_zero _ => false
      | _ => true
      end
  | VStr s => negb (String.eqb s "")
  | VList l => match l with [] => false | _ => true end
  | VDict d => match d with [] => false | _ => true end
  end.

(** ** Strings

    A string is a sequence of code points below 256, which covers the
    provider's wire format and the ticker symbols. *)

Definition code (c : ascii) : N := N_of_ascii c.

Definition is_digit (c : ascii) : bool :=
  ((48 <=? code c) && (code c <=? 57))%N.

Definition digit_val (c : ascii) : Z := Z.of_N (code c) - 48.

(** [str.isspace] on one character; also [\s] of the [re] module. *)
Definition is_space (c : ascii) : bool :=
  let n := code c in
  (((9 <=? n) && (n <=? 13)) || ((28 <=? n) && (n <=? 32))
   || (n =? 133) || (n =? 160))%N.

(** The white space that [float] and [int] skip around a numeral: the
    ASCII blanks of the C locale, and the two blanks above 127. *)
Definition is_num_space (c : ascii) : bool :=
  let n := code c in
  (((9 <=? n) && (n <=? 13)) || (n =? 32) || (n =? 133) || (n =? 160))%N.

Fixpoint drop_while (p : ascii -> bool) (l : list ascii) : list ascii :=
  match l with
  | [] => []
  | c :: l' => if p c then drop_while p l' else l
  end.

Definition trim (p : ascii -> bool) (l : list ascii) : list ascii :=
  rev (drop_while p (rev (drop_while p l))).

(** [s.strip()] *)
Definition strip (s : string) : string :=
  string_of_list_ascii (trim is_space (list_ascii_of_string s)).

(** The capital of one character: of the letters [a] to [z], and of the
    small letters from 224 to 254, of which 247, the division sign, is
    none. The sharp s, 223, becomes two letters. The capitals of 181 and
    255 lie above 255, out of the strings of this model, and the two
    characters are kept. *)
Definition upper_char (c : ascii) : list ascii :=
  let n := code c in
  if ((97 <=? n) && (n <=? 122))%N then [ascii_of_N (n - 32)]
  else if ((224 <=? n) && (n <=? 254) && negb (n =? 247))%N
       then [ascii_of_N (n - 32)]
  else if (n =? 223)%N then ["S"; "S"]%char
  else [c].

(** [s.upper()] *)
Definition upper (s : string) : string :=
  string_of_list_ascii (flat_map upper_char (list_ascii_of_string s)).

Fixpoint prefix_of (p l : list ascii) : bool :=
  match p, l with
  | [], _ => true
  | _ :: _, [] => false
  | a :: p', b :: l' => Ascii.eqb a b && prefix_of p' l'
  end.

Fixpoint infix_of (p l : list ascii) : bool :=
  prefix_of p l ||
  match l with
  | [] => false
  | _ :: l' => infix_of p l'
  end.

(** [k in o] for a string [k]: key test on a dict, element test on a list,
    substring test on a string; the other objects are not containers. *)
Definition contains (k : string) (o : value) : res bool :=
  match o with
  | VDict d => Ok (has_key k d)
  | VList l =>
      Ok (existsb (fun v => match v with VStr s => String.eqb s k | _ => false end) l)
  | VStr s => Ok (infix_of (list_ascii_of_string k) (list_ascii_of_string s))
  | VNone | VBool _ | VInt _ | VFloat _ => Raise TypeError
  end.

(** [o[k]] for a string [k]: a dict looks the key up (the code only
    subscripts after [k in o]); a string or a list wants an integer. *)
Definition subscript (o : value) (k : string) : res value :=
  match o with
  | VDict d => match lookup k d with Some v => Ok v | None => Raise KeyError end
  | _ => Raise TypeError
  end.

(** ** Numbers

    [float_of_decimal neg m e] is the binary64 value nearest to
    [m * 10 ^ e] (ties to even), with the sign [neg]; it is what
    [float] makes of a decimal numeral. Overflow gives an infinity and
    underflow a zero, as in Python. *)

Definition float_of_decimal (neg : bool) (m e : Z) : pyfloat :=
  match m with
  | Zpos p =>
      if 0 <=? e then
        binary_normalize prec64 emax64 (cond_Zopp neg (Zpos p * 10 ^ e)) 0 neg
      else
        let d := 10 ^ (- e) in
        let k := Z.max 0 (prec64 + 3 + Z.log2 d - Z.log2 (Zpos p)) in
        let (q, r) := Z.div_eucl (Zpos p * 2 ^ k) d in
        let l := if r =? 0 then loc_Exact else loc_Inexact (2 * r ?= d) in
        binary_round_aux prec64 emax64 neg q (- k) l
  | _ => S754_zero neg
  end.

(** [float(n)] for an [int]: exact rounding, [OverflowError] beyond the
    range of a double. *)
Definition float_of_int (n : Z) : res pyfloat :=
  match binary_normalize prec64 emax64 n 0 false with
  | S754_infinity _ => Raise OverflowError
  | f => Ok f
  end.

(** [int(f)] for a [float]: truncation toward zero. *)
Definition int_of_float (f : pyfloat) : res Z :=
  match f with
  | S754_nan => Raise ValueError
  | S754_infinity _ => Raise OverflowError
  | S754_zero _ => Ok 0
  | S754_finite s m e =>
      let a := if 0 <=? e then Zpos m * 2 ^ e else Zpos m / 2 ^ (- e) in
      Ok (cond_Zopp s a)
  end.

Fixpoint span_digits (l : list ascii) : list ascii * list ascii :=
  match l with
  | [] => ([], [])
  | c :: l' =>
      if is_digit c then let (ds, r) := span_digits l' in (c :: ds, r)
      else ([], l)
  end.

Definition digits_val (ds : list ascii) : Z :=
  fold_left (fun acc c => 10 * acc + digit_val c) ds 0.

Definition take_sign (l : list ascii) : bool * list ascii :=
  match l with
  | c :: r =>
      if Ascii.eqb c "-" then (true, r)
      else if Ascii.eqb c "+" then (false, r)
      else (false, l)
  | [] => (false, l)
  end.

(** Underscores of a numeral: each one stands between two digits. The
    result is the text without them, or [None] when one is misplaced. *)
Fixpoint drop_underscores (prev : ascii) (l : list ascii) : option (list ascii) :=
  match l with
  | [] => if Ascii.eqb prev "_" then None else Some []
  | c :: l' =>
      if Ascii.eqb c "_" then
        if is_digit prev then drop_underscores c l' else None
      else if Ascii.eqb prev "_" && negb (is_digit c) then None
      else option_map (cons c) (drop_underscores c l')
  end.

Definition lower_char (c : ascii) : ascii :=
  let n := code c in
  if ((65 <=? n) && (n <=? 90))%N then ascii_of_N (n + 32) else c.

Definition text_eqb (l : list ascii) (s : string) : bool :=
  String.eqb (string_of_list_ascii l) s.

(** The numeral after the sign: [inf], [infinity], [nan] in any case, or
    digits with an optional point and an optional exponent. *)
Definition parse_float_body (neg : bool) (l : list ascii) : option pyfloat :=
  let low := map lower_char l in
  if text_eqb low "inf" || text_eqb low "infinity" then Some (S754_infinity neg)
  else if text_eqb low "nan" then Some S754_nan
  else
    let (ip, r1) := span_digits l in
    let (fp, r2) :=
      match r1 with
      | c :: r => if Ascii.eqb c "." then span_digits r else ([], r1)
      | [] => ([], r1)
      end in
    let ds := (ip ++ fp)%list in
    let scale := - Z.of_nat (length fp) in
    match ds with
    | [] => None
    | _ :: _ =>
        match r2 with
        | [] => Some (float_of_decimal neg (digits_val ds) scale)
        | c :: r3 =>
            if Ascii.eqb (lower_char c) "e" then
              let (eneg, r4) := take_sign r3 in
              let (ed, r5) := span_digits r4 in
              match ed, r5 with
              | _ :: _, [] =>
                  Some (float_of_decimal neg (digits_val ds)
                          (cond_Zopp eneg (digits_val ed) + scale))
              | _, _ => None
              end
            else None
        end
    end.

(** [float(s)] for a [str]. *)
Definition parse_float (s : string) : option pyfloat :=
  match drop_underscores "000" (list_ascii_of_string s) with
  | None => None
  | Some l =>
      let (neg, body) := take_sign (trim is_num_space l) in
      parse_float_body neg body
  end.

(** The longest numeral that [int] converts, in digits: the default of
    [sys.set_int_max_str_digits]. *)
Definition max_str_digits : nat := 4300.

(** [int(s)] for a [str], base ten: blanks, a sign, digits. Leading zeros
    are allowed and count as digits; underscores do not count. *)
Definition parse_int (s : string) : option Z :=
  let (neg, body) := take_sign (trim is_num_space (list_ascii_of_string s)) in
  match drop_underscores "000" body with
  | Some (c :: ds) =>
      if forallb is_digit (c :: ds) && (List.length (c :: ds) <=? max_str_digits)%nat
      then Some (cond_Zopp neg (digits_val (c :: ds)))
      else None
  | _ => None
  end.

(** [float(v)] *)
Definition float (v : value) : res pyfloat :=
  match v with
  | VFloat f => Ok f
  | VInt n => float_of_int n
  | VBool b => float_of_int (if b then 1 else 0)
  | VStr s => match parse_float s with Some f => Ok f | None => Raise ValueError end
  | VNone | VList _ | VDict _ => Raise TypeError
  end.

(** [int(v)] *)
Definition int (v : value) : res Z :=
  match v with
  | VInt n => Ok n
  | VBool b => Ok (if b then 1 else 0)
  | VFloat f => int_of_float f
  | VStr s => match parse_int s with Some n => Ok n | None => Raise ValueError end
  | VNone | VList _ | VDict _ => Raise TypeError
  end.

(** ** [datetime.strptime(s, '%Y-%m-%d %H:%M:%S')]

    The library turns the format into the regular expression
    [(\d\d\d\d)-(1[0-2]|0[1-9]|[1-9])-(3[0-1]|[1-2]\d|0[1-9]|[1-9]| [1-9])\s+(2[0-3]|[0-1]\d|\d):([0-5]\d|\d):(6[0-1]|[0-5]\d|\d)],
    matches it at the start of [s], wants the match to end where [s]
    ends, and builds a [datetime] from the six groups, which checks the
    calendar. Every failure is a [ValueError]. *)

Record datetime : Type := mkDatetime {
  year : Z; month : Z; day : Z; hour : Z; minute : Z; second : Z
}.

Definition in_range (lo hi : N) (c : ascii) : bool :=
  ((lo <=? code c) && (code c <=? hi))%N.

(** The ways a group matches a prefix of the text, in the order the
    alternatives are tried: the value read and the text left. *)
Definition alts : Type := list (Z * list ascii).

(** [a b] with [a] fixed and [b] in a range. *)
Definition two (a : ascii) (lo hi : N) (l : list ascii) : alts :=
  match l with
  | c1 :: c2 :: r =>
      if Ascii.eqb c1 a && in_range lo hi c2
      then [(10 * digit_val c1 + digit_val c2, r)] else []
  | _ => []
  end.

(** [[a-b]\d] *)
Definition two_any (lo hi : N) (l : list ascii) : alts :=
  match l with
  | c1 :: c2 :: r =>
      if in_range lo hi c1 && is_digit c2
      then [(10 * digit_val c1 + digit_val c2, r)] else []
  | _ => []
  end.

(** one character in a range *)
Definition one (lo hi : N) (l : list ascii) : alts :=
  match l with
  | c :: r => if in_range lo hi c then [(digit_val c, r)] else []
  | [] => []
  end.

(** a blank and a digit from 1 to 9 *)
Definition blank_one (l : list ascii) : alts :=
  match l with
  | c1 :: c2 :: r =>
      if Ascii.eqb c1 " " && in_range 49 57 c2 then [(digit_val c2, r)] else []
  | _ => []
  end.

Definition group_Y (l : list ascii) : alts :=
  match l with
  | a :: b :: c :: d :: r =>
      if is_digit a && is_digit b && is_digit c && is_digit d
      then [(digits_val [a; b; c; d], r)] else []
  | _ => []
  end.

Definition group_m (l : list ascii) : alts :=
  (two "1" 48 50 l ++ two "0" 49 57 l ++ one 49 57 l)%list.

Definition group_d (l : list ascii) : alts :=
  (two "3" 48 49 l ++ two_any 49 50 l ++ two "0" 49 57 l ++ one 49 57 l
   ++ blank_one l)%list.

Definition group_H (l : list ascii) : alts :=
  (two "2" 48 51 l ++ two_any 48 49 l ++ one 48 57 l)%list.

Definition group_M (l : list ascii) : alts :=
  (two_any 48 53 l ++ one 48 57 l)%list.

Definition group_S (l : list ascii) : alts :=
  (two "6" 48 49 l ++ two_any 48 53 l ++ one 48 57 l)%list.

(** Backtracking: the first alternative whose continuation matches. *)
Fixpoint first_match {B : Type} (a : alts) (k : Z -> list ascii -> option B)
  : option B :=
  match a with
  | [] => None
  | (v, r) :: a' =>
      match k v r with
      | Some b => Some b
      | None => first_match a' k
      end
  end.

Definition lit (c : ascii) {B : Type} (l : list ascii)
           (k : list ascii -> option B) : option B :=
  match l with
  | c' :: r => if Ascii.eqb c' c then k r else None
  | [] => None
  end.

(** [\s+] before a group that starts with a digit: the run of blanks is
    taken whole, since no shorter run leaves a digit in front. *)
Definition blanks {B : Type} (l : list ascii)
           (k : list ascii -> option B) : option B :=
  match l with
  | c :: r => if is_space c then k (drop_while is_space r) else None
  | [] => None
  end.

(** The match of the whole expression: the six groups and the text that
    the match leaves. *)
Definition regex_match (l : list ascii) : option (datetime * list ascii) :=
  first_match (group_Y l) (fun y l1 =>
  lit "-" l1 (fun l2 =>
  first_match (group_m l2) (fun mo l3 =>
  lit "-" l3 (fun l4 =>
  first_match (group_d l4) (fun d l5 =>
  blanks l5 (fun l6 =>
  first_match (group_H l6) (fun h l7 =>
  lit ":" l7 (fun l8 =>
  first_match (group_M l8) (fun mi l9 =>
  lit ":" l9 (fun l10 =>
  first_match (group_S l10) (fun sec rest =>
  Some (mkDatetime y mo d h mi sec, rest)))))))))))).

Definition is_leap (y : Z) : bool :=
  (y mod 4 =? 0) && (negb (y mod 100 =? 0) || (y mod 400 =? 0)).

Definition days_in_month (y m : Z) : Z :=
  if m =? 2 then (if is_leap y then 29 else 28)
  else if (m =? 4) || (m =? 6) || (m =? 9) || (m =? 11) then 30
  else 31.

(** The checks of the [datetime] constructor. *)
Definition valid_datetime (t : datetime) : bool :=
  (1 <=? year t) && (year t <=? 9999)
  && (1 <=? month t) && (month t <=? 12)
  && (1 <=? day t) && (day t <=? days_in_month (year t) (month t))
  && (0 <=? hour t) && (hour t <=? 23)
  && (0 <=? minute t) && (minute t <=? 59)
  && (0 <=? second t) && (second t <=? 59).

Definition strptime (s : string) : res datetime :=
  match regex_match (list_ascii_of_string s) with
  | Some (t, []) => if valid_datetime t then Ok t else Raise ValueError
  | Some (_, _ :: _) => Raise ValueError       (* unconverted data remains *)
  | None => Raise ValueError                   (* does not match format *)
  end.

Definition datetime_eqb (a b : datetime) : bool :=
  (year a =? year b) && (month a =? month b) && (day a =? day b)
  && (hour a =? hour b) && (minute a =? minute b) && (second a =? second b).

End Py.

(* ===================================================================== *)
(** * The pipeline                                                        *)
(* ===================================================================== *)

Module Pipeline.
Import Py.

(** ** The world the code acts on *)

Inductive level : Type := INFO | WARNING | ERROR.

(** The messages of the module's logger, one constructor per call site,
    with the values that the message interpolates. *)
Inductive message : Type :=
| ApiError (symbol : string) (detail : value)
| RateLimitNote (symbol : string) (detail : value)
| RequestFailed (symbol : string)
| JsonParsingFailed (symbol : string)
| DataPointFailed (symbol timestamp : string) (e : exn)
| ParseFailed (symbol : string) (e : exn)
| StoredRecords (n : nat)
| StoreFailed (e : exn)
| KeyNotConfigured
| ProcessingSymbol (symbol : string)
| NoDataRetrieved (symbol : string)
| NoValidData (symbol : string)
| ProcessedRecords (n : nat) (symbol : string)
| StoreFailedFor (symbol : string)
| PipelineCompleted (successful of_total records : nat).

(** A parsed data point: the dict that [parse_stock_data] builds. The two
    metadata entries hold whatever the response holds under their keys. *)
Record observation : Type := mkObservation {
  symbol : string;
  timestamp : datetime;
  open_price : pyfloat;
  high_price : pyfloat;
  low_price : pyfloat;
  close_price : pyfloat;
  volume : Z;
  last_refreshed : value;
  time_zone : value
}.

(** ** The table [stock_data]

    The driver sends a float as the text of [repr], the shortest decimal
    numeral that reads back as the same float, and the server rounds the
    numeral to the four decimals of a [DECIMAL(15, 4)] column, a half away
    from zero. *)

(** The value of a [DECIMAL(15, 4)] column, in units of 1/10000. *)
Inductive decimal : Type :=
| Dec (units : Z)
| DecNaN
| DecInfinity (negative : bool).

(** The positive rational [n / d] that a finite float is. *)
Definition ratio_of (m : positive) (e : Z) : Z * Z :=
  if 0 <=? e then (Zpos m * 2 ^ e, 1) else (Zpos m, 2 ^ (- e)).

(** [10 ^ p <= n / d] *)
Definition pow10_le (p : Z) (x : Z * Z) : bool :=
  let (n, d) := x in
  if 0 <=? p then 10 ^ p * d <=? n else d <=? n * 10 ^ (- p).

(** The [p] with [10 ^ p <= n / d < 10 ^ (p + 1)]: an estimate from the
    binary logarithms, then the comparison. *)
Definition magnitude (x : Z * Z) : Z :=
  let (n, d) := x in
  let p := ((Z.log2 n - Z.log2 d) * 30103) / 100000 in
  if pow10_le (p + 2) x then p + 2
  else if pow10_le (p + 1) x then p + 1
  else if pow10_le p x then p
  else if pow10_le (p - 1) x then p - 1
  else p - 2.

(** [floor ((n / d) / 10 ^ k)] *)
Definition scaled_floor (x : Z * Z) (k : Z) : Z :=
  let (n, d) := x in
  if 0 <=? k then n / (d * 10 ^ k) else (n * 10 ^ (- k)) / d.

(** The float is the positive [m * 2 ^ e]. *)
Definition same_float (f : pyfloat) (m : positive) (e : Z) : bool :=
  match f with
  | S754_finite false m' e' =>
      if e' <=? e then Zpos m' =? Zpos m * 2 ^ (e - e')
      else Zpos m =? Zpos m' * 2 ^ (e' - e)
  | _ => false
  end.

(** [n / d] against the middle of [q * 10 ^ k] and [(q + 1) * 10 ^ k]. *)
Definition nearer (x : Z * Z) (q k : Z) : comparison :=
  let (n, d) := x in
  if 0 <=? k then (2 * n ?= (2 * q + 1) * 10 ^ k * d)
  else (2 * n * 10 ^ (- k) ?= (2 * q + 1) * d).

(** The shortest numeral [digits * 10 ^ k] that reads back as the float,
    tried with [n], [n + 1], ... significant digits; of two of a length,
    the nearer. Seventeen digits always read back. *)
Fixpoint shortest (fuel : nat) (n : Z) (m : positive) (e : Z) (p : Z) : Z * Z :=
  let x := ratio_of m e in
  let k := p - n + 1 in
  let q := scaled_floor x k in
  let below := same_float (float_of_decimal false q k) m e in
  let above := same_float (float_of_decimal false (q + 1) k) m e in
  match fuel with
  | O => (q, k)
  | S fuel' =>
      match below, above with
      | true, true =>
          match nearer x q k with
          | Lt => (q, k)
          | Gt => (q + 1, k)
          | Eq => if Z.even q then (q, k) else (q + 1, k)
          end
      | true, false => (q, k)
      | false, true => (q + 1, k)
      | false, false => shortest fuel' (n + 1) m e p
      end
  end.

(** [repr] of the positive float [m * 2 ^ e], as digits and exponent. *)
Definition repr_digits (m : positive) (e : Z) : Z * Z :=
  shortest 17 1 m e (magnitude (ratio_of m e)).

(** The numeral [digits * 10 ^ k] at scale four, a half away from zero. *)
Definition round_scale4 (digits k : Z) : Z :=
  if 0 <=? k + 4 then digits * 10 ^ (k + 4)
  else let t := 10 ^ (- (k + 4)) in (2 * digits + t) / (2 * t).

(** What a [DECIMAL(15, 4)] column holds of a float that it accepts. A
    value of more than eleven digits before the point and an infinity are
    errors of the statement. *)
Definition to_decimal (f : pyfloat) : decimal :=
  match f with
  | S754_zero _ => Dec 0
  | S754_nan => DecNaN
  | S754_infinity s => DecInfinity s
  | S754_finite s m e =>
      let (digits, k) := repr_digits m e in
      Dec (cond_Zopp s (round_scale4 digits k))
  end.

(** What a [VARCHAR(n)] column keeps of a text that it accepts: a text in
    excess by spaces only is cut to [n] characters. *)
Definition varchar (n : nat) (s : string) : string :=
  let l := list_ascii_of_string s in
  if forallb (Ascii.eqb " ") (skipn n l)
  then string_of_list_ascii (firstn n l)
  else s.

(** What the server reads from a parameter whose conversion to the type
    of the column is not computed here: the text of the refresh time as a
    [TIMESTAMP], the time zone as a [VARCHAR(50)]. The reading is a
    function of the parameter. *)
Inductive reading : Type :=
| Reading (parameter : value).

(** The nine columns that the insert writes. *)
Record stored : Type := mkStored {
  symbol_col : string;                 (* VARCHAR(10) *)
  timestamp_col : datetime;            (* TIMESTAMP *)
  open_price_col : decimal;            (* DECIMAL(15, 4) *)
  high_price_col : decimal;
  low_price_col : decimal;
  close_price_col : decimal;
  volume_col : Z;                      (* BIGINT *)
  last_refreshed_col : reading;        (* TIMESTAMP *)
  time_zone_col : reading              (* VARCHAR(50) *)
}.

(** The values of [VALUES (%s, ..., %s)] for a record, as the columns
    take them. *)
Definition columns (o : observation) : stored :=
  mkStored (varchar 10 (symbol o)) (timestamp o)
           (to_decimal (open_price o)) (to_decimal (high_price o))
           (to_decimal (low_price o)) (to_decimal (close_price o))
           (volume o) (Reading (last_refreshed o)) (Reading (time_zone o)).

(** A row of the table: the nine columns and [created_at], which the
    table fills in by default. The primary key is [(symbol, timestamp)]. *)
Record row : Type := mkRow {
  cells : stored;
  created_at : Z
}.

Record world : Type := mkWorld {
  table : list row;                    (* committed rows of stock_data *)
  log : list (level * message);        (* records emitted so far *)
  requests : list string               (* symbols requested from the provider *)
}.

(** ** Computations: state and exceptions *)

Definition M (A : Type) : Type := world -> res A * world.

Definition ret {A : Type} (a : A) : M A := fun w => (Ok a, w).

Definition raise {A : Type} (e : exn) : M A := fun w => (Raise e, w).

Definition mbind {A B : Type} (m : M A) (k : A -> M B) : M B :=
  fun w =>
    match m w with
    | (Ok a, w') => k a w'
    | (Raise e, w') => (Raise e, w')
    end.

Definition lift {A : Type} (r : res A) : M A := fun w => (r, w).

(** [try: m  except <classes>: h]; [handler e] is [None] for a class that
    no clause names. *)
Definition try_except {A : Type} (m : M A) (handler : exn -> option (M A)) : M A :=
  fun w =>
    match m w with
    | (Ok a, w') => (Ok a, w')
    | (Raise e, w') =>
        match handler e with
        | Some h => h w'
        | None => (Raise e, w')
        end
    end.

Definition logger (l : level) (m : message) : M unit :=
  fun w => (Ok tt, mkWorld (table w) (log w ++ [(l, m)]) (requests w)).

Declare Scope m_scope.
Delimit Scope m_scope with M.
Notation "x <- m ;; k" := (mbind m (fun x => k))
  (at level 61, m at next level, right associativity) : m_scope.
Notation "m ;; k" := (mbind m (fun _ => k))
  (at level 61, right associativity) : m_scope.

(** ** The provider *)

(** What the three calls [requests.get], [raise_for_status] and
    [response.json] do for one request. *)
Inductive http_outcome : Type :=
| GetRaises                      (* connection error, timeout: RequestException *)
| StatusRaises                   (* HTTPError, a RequestException *)
| JsonRaises (as_request_exception : bool)
                                 (* the body does not decode: a ValueError,
                                    which newer versions of the library also
                                    make a RequestException *)
| OtherRaises (e : exn)          (* one of the three calls raises an
                                    exception of another class, as [json]
                                    does with [RecursionError] on a body
                                    nested too deep *)
| Json (data : value).           (* the decoded body *)

Definition request (answer : http_outcome) (symbol : string) : M value :=
  fun w =>
    let w' := mkWorld (table w) (log w) (requests w ++ [symbol]) in
    match answer with
    | GetRaises | StatusRaises | JsonRaises true => (Raise RequestException, w')
    | JsonRaises false => (Raise ValueError, w')
    | OtherRaises e => (Raise e, w')
    | Json data => (Ok data, w')
    end.

Local Open Scope m_scope.

(** [StockDataFetcher.fetch_stock_data]; [None] is [VNone]. *)
Definition fetch_stock_data (answer : http_outcome) (symbol : string) : M value :=
  try_except
    (data <- request answer symbol ;;
     has_error <- lift (contains "Error Message" data) ;;
     if has_error then
       detail <- lift (subscript data "Error Message") ;;
       logger ERROR (ApiError symbol detail) ;;
       ret VNone
     else
       has_note <- lift (contains "Note" data) ;;
       if has_note then
         detail <- lift (subscript data "Note") ;;
         logger WARNING (RateLimitNote symbol detail) ;;
         ret VNone
       else ret data)
    (fun e =>
       match e with
       | RequestException => Some (logger ERROR (RequestFailed symbol) ;; ret VNone)
       | ValueError => Some (logger ERROR (JsonParsingFailed symbol) ;; ret VNone)
       | _ => None
       end).

(** ** The parser *)

(** The dict display inside the inner [try] of [parse_stock_data]; its
    entries are evaluated in the order written. *)
Definition data_point (symbol : string) (metadata : value)
           (timestamp : string) (values : value) : res observation :=
  (t <- strptime timestamp ;;
   v1 <- get values "1. open" (VInt 0) ;;
   o <- float v1 ;;
   v2 <- get values "2. high" (VInt 0) ;;
   h <- float v2 ;;
   v3 <- get values "3. low" (VInt 0) ;;
   l <- float v3 ;;
   v4 <- get values "4. close" (VInt 0) ;;
   c <- float v4 ;;
   v5 <- get values "5. volume" (VInt 0) ;;
   n <- int v5 ;;
   lr <- get metadata "3. Last Refreshed" VNone ;;
   tz <- get metadata "5. Time Zone" VNone ;;
   Ok (mkObservation symbol t o h l c n lr tz))%py.

(** The [for] loop over [time_series.items()], with the list built so
    far. *)
Fixpoint parse_points (symbol : string) (metadata : value)
         (entries : list (string * value)) (parsed_data : list observation)
  : M (list observation) :=
  match entries with
  | [] => ret parsed_data
  | (timestamp, values) :: rest =>
      match data_point symbol metadata timestamp values with
      | Ok point => parse_points symbol metadata rest (parsed_data ++ [point])
      | Raise ValueError =>
          logger WARNING (DataPointFailed symbol timestamp ValueError) ;;
          parse_points symbol metadata rest parsed_data
      | Raise TypeError =>
          logger WARNING (DataPointFailed symbol timestamp TypeError) ;;
          parse_points symbol metadata rest parsed_data
      | Raise e => raise e
      end
  end.

(** The body of the outer [try]. *)
Definition parse_body (symbol : string) (raw_data : value) : M (list observation) :=
  time_series <- lift (get raw_data "Time Series (60min)" (VDict [])) ;;
  metadata <- lift (get raw_data "Meta Data" (VDict [])) ;;
  entries <- lift (items time_series) ;;
  parse_points symbol metadata entries [].

(** [StockDataFetcher.parse_stock_data] *)
Definition parse_stock_data (symbol : string) (raw_data : value) : M (list observation) :=
  try_except (parse_body symbol raw_data)
    (fun e => Some (logger ERROR (ParseFailed symbol e) ;; ret [])).

(** ** The store *)

(** What the database does during one call of [store_data]. A statement
    whose values do not fit their columns is one that the server does not
    accept. *)
Record pg_session : Type := mkSession {
  connects : bool;                        (* get_conn and cursor succeed *)
  accepts : nat -> observation -> bool;   (* the k-th execute succeeds *)
  commits : bool;                         (* commit succeeds *)
  now : Z                                 (* CURRENT_TIMESTAMP of the transaction *)
}.

(** The proposed row conflicts with row [r] on [(symbol, timestamp)]. *)
Definition same_key (o : observation) (r : row) : bool :=
  String.eqb (symbol_col (columns o)) (symbol_col (cells r))
  && datetime_eqb (timestamp_col (columns o)) (timestamp_col (cells r)).

(** [DO UPDATE SET]: the six assigned columns take the values of
    [EXCLUDED], the proposed row; the others stay. *)
Definition on_conflict (o : observation) (r : row) : row :=
  let old := cells r in
  let excluded := columns o in
  mkRow (mkStored (symbol_col old) (timestamp_col old)
           (open_price_col excluded) (high_price_col excluded)
           (low_price_col excluded) (close_price_col excluded)
           (volume_col excluded) (last_refreshed_col excluded)
           (time_zone_col old))
        (created_at r).

(** [INSERT ... ON CONFLICT (symbol, timestamp) DO UPDATE ...] on the rows
    that the transaction sees. *)
Fixpoint upsert (now : Z) (o : observation) (rows : list row) : list row :=
  match rows with
  | [] => [mkRow (columns o) now]
  | r :: rows' =>
      if same_key o r then on_conflict o r :: rows'
      else r :: upsert now o rows'
  end.

(** [postgres_hook.get_conn()]: a transaction on the committed rows. *)
Definition get_conn (pg : pg_session) : M (list row) :=
  fun w => if connects pg then (Ok (table w), w) else (Raise DatabaseError, w).

(** [cursor.execute(insert_sql, ...)], the k-th of the call. *)
Definition execute (pg : pg_session) (k : nat) (record : observation)
           (conn : list row) : M (list row) :=
  if accepts pg k record then ret (upsert (now pg) record conn)
  else raise DatabaseError.

(** The [for record in data] loop. *)
Fixpoint execute_all (pg : pg_session) (k : nat) (data : list observation)
         (conn : list row) : M (list row) :=
  match data with
  | [] => ret conn
  | record :: rest =>
      conn' <- execute pg k record conn ;;
      execute_all pg (S k) rest conn'
  end.

(** [conn.commit()]; a commit that fails leaves the committed rows as
    they were. *)
Definition commit (pg : pg_session) (conn : list row) : M unit :=
  fun w =>
    if commits pg then (Ok tt, mkWorld conn (log w) (requests w))
    else (Raise DatabaseError, w).

(** [StockDataFetcher.store_data]. Closing the cursor and the connection
    after the commit does not fail and is left out. *)
Definition store_data (pg : pg_session) (data : list observation) : M bool :=
  match data with
  | [] => ret false
  | _ :: _ =>
      try_except
        (conn <- get_conn pg ;;
         conn' <- execute_all pg 0 data conn ;;
         commit pg conn' ;;
         logger INFO (StoredRecords (length data)) ;;
         ret true)
        (fun e => Some (logger ERROR (StoreFailed e) ;; ret false))
  end.

(** ** The runner *)

(** The provider's answer and the database session met in each iteration
    of the loop over the symbols. *)
Record environment : Type := mkEnv {
  http : nat -> string -> http_outcome;
  pg : nat -> pg_session
}.

Definition placeholder : string := "your_alpha_vantage_api_key_here".

Definition key_missing (api_key : string) : bool :=
  String.eqb api_key "" || String.eqb api_key placeholder.

(** The local variables [successful_symbols] and [total_records]. *)
Record counters : Type := mkCounters {
  successful_symbols : nat;
  total_records : nat
}.

(** The body of the loop, for the [i]-th entry of the list. *)
Definition process_symbol (env : environment) (i : nat) (entry : string)
           (c : counters) : M counters :=
  let symbol := upper (strip entry) in
  if String.eqb symbol "" then ret c
  else
    logger INFO (ProcessingSymbol symbol) ;;
    raw_data <- fetch_stock_data (http env i symbol) symbol ;;
    if negb (truthy raw_data) then
      logger WARNING (NoDataRetrieved symbol) ;; ret c
    else
      parsed_data <- parse_stock_data symbol raw_data ;;
      match parsed_data with
      | [] => logger WARNING (NoValidData symbol) ;; ret c
      | _ :: _ =>
          stored <- store_data (pg env i) parsed_data ;;
          if stored then
            logger INFO (ProcessedRecords (length parsed_data) symbol) ;;
            ret (mkCounters (S (successful_symbols c))
                            (total_records c + length parsed_data))
          else
            logger ERROR (StoreFailedFor symbol) ;; ret c
      end.

Fixpoint process_symbols (env : environment) (i : nat) (symbols : list string)
         (c : counters) : M counters :=
  match symbols with
  | [] => ret c
  | entry :: rest =>
      c' <- process_symbol env i entry c ;;
      process_symbols env (S i) rest c'
  end.

(** [fetch_and_process_stock_data] *)
Definition fetch_and_process_stock_data (env : environment) (api_key : string)
           (symbols : list string) : M unit :=
  if key_missing api_key then logger ERROR KeyNotConfigured
  else
    c <- process_symbols env 0 symbols (mkCounters 0 0) ;;
    logger INFO (PipelineCompleted (successful_symbols c) (length symbols)
                                   (total_records c)).

End Pipeline.

(* ===================================================================== *)
(** * The scheduled task                                                  *)
(* ===================================================================== *)

Module Dag.
Import Py Pipeline.

(** [l.split(sep)] on the characters of a string, for a separator of one
    character: the pieces between the separators, empty pieces included. *)
Fixpoint split_chars (sep : ascii) (l : list ascii) : list (list ascii) :=
  match l with
  | [] => [[]]
  | c :: l' =>
      if Ascii.eqb c sep then [] :: split_chars sep l'
      else
        match split_chars sep l' with
        | piece :: pieces => (c :: piece) :: pieces
        | [] => [[c]]
        end
  end.

(** [s.split(sep)] *)
Definition split (sep : ascii) (s : string) : list string :=
  map string_of_list_ascii (split_chars sep (list_ascii_of_string s)).

(** [os.environ]: the variables that are set. *)
Definition environ : Type := string -> option string.

(** [os.getenv(name)] and [os.getenv(name, default)] *)
Definition getenv (vars : environ) (name : string) : option string := vars name.

Definition getenv_default (vars : environ) (name default : string) : string :=
  match vars name with
  | Some v => v
  | None => default
  end.

(** The [op_kwargs] of [fetch_data_task]. *)
Definition api_key_of (vars : environ) : option string :=
  getenv vars "ALPHA_VANTAGE_API_KEY".

Definition symbols_of (vars : environ) : list string :=
  split "," (getenv_default vars "STOCK_SYMBOLS" "AAPL").

(** [fetch_data_task]: the runner called with the two arguments. A key
    that is not set is [None], which [not api_key] takes as missing: the
    runner logs the error and returns. *)
Definition fetch_data_task (env : environment) (vars : environ) : M unit :=
  match api_key_of vars with
  | None => logger ERROR KeyNotConfigured
  | Some api_key => fetch_and_process_stock_data env api_key (symbols_of vars)
  end.

End Dag.

(* ===================================================================== *)
(** * Vocabulary of the properties                                        *)
(* ===================================================================== *)

Module Props.
Import Py Pipeline.

Definition empty_world : world := mkWorld [] [] [].

(** A section of a response: the value under the key, an empty dict when
    the key is absent (the default of [raw_data.get]). *)
Definition section (k : string) (d : list (string * value)) : value :=
  match lookup k d with Some v => v | None => VDict [] end.

Definition zero : pyfloat := S754_zero false.

(** How a price of an observation comes from a field set: converted from
    the field when the field is there, zero when it is not. *)
Definition price_from (d : list (string * value)) (k : string) (p : pyfloat) : Prop :=
  match lookup k d with
  | Some v => float v = Ok p
  | None => p = zero
  end.

Definition volume_from (d : list (string * value)) (n : Z) : Prop :=
  match lookup "5. volume" d with
  | Some v => int v = Ok n
  | None => n = 0
  end.

Definition meta_from (meta : list (string * value)) (k : string) : value :=
  match lookup k meta with Some v => v | None => VNone end.

(** [built_from sym meta e o]: observation [o] is the data point of the
    time-series entry [e]. *)
Definition built_from (sym : string) (meta : list (string * value))
           (e : string * value) (o : observation) : Prop :=
  exists d,
    snd e = VDict d
    /\ strptime (fst e) = Ok (timestamp o)
    /\ price_from d "1. open" (open_price o)
    /\ price_from d "2. high" (high_price o)
    /\ price_from d "3. low" (low_price o)
    /\ price_from d "4. close" (close_price o)
    /\ volume_from d (volume o)
    /\ symbol o = sym
    /\ last_refreshed o = meta_from meta "3. Last Refreshed"
    /\ time_zone o = meta_from meta "5. Time Zone".

(** [subseq k l]: [k] is [l] with some elements left out. *)
Inductive subseq {A : Type} : list A -> list A -> Prop :=
| subseq_nil : subseq [] []
| subseq_drop (x : A) (k l : list A) : subseq k l -> subseq k (x :: l)
| subseq_keep (x : A) (k l : list A) : subseq k l -> subseq (x :: k) (x :: l).










(** ** Rows and keys *)

(** The key under which a record is written, and the key of a row. *)
Definition key_of (o : observation) : string * datetime :=
  (symbol_col (columns o), timestamp_col (columns o)).

Definition row_key (r : row) : string * datetime :=
  (symbol_col (cells r), timestamp_col (cells r)).

Definition keys (rows : list row) : list (string * datetime) :=
  map row_key rows.

(** The primary key: no two rows share a key. *)
Definition keys_unique (rows : list row) : Prop := NoDup (keys rows).

Definition rows_of (o : observation) (rows : list row) : list row :=
  filter (same_key o) rows.

(** The six columns that a write puts in place: the prices rounded to
    the four decimals of their columns, the volume, and the server's
    reading of the refresh time. *)
Definition holds (r : row) (o : observation) : Prop :=
  open_price_col (cells r) = to_decimal (open_price o)
  /\ high_price_col (cells r) = to_decimal (high_price o)
  /\ low_price_col (cells r) = to_decimal (low_price o)
  /\ close_price_col (cells r) = to_decimal (close_price o)
  /\ volume_col (cells r) = volume o
  /\ last_refreshed_col (cells r) = Reading (last_refreshed o).

(** The rows after the statements of a batch, in order. *)
Definition written (now : Z) (data : list observation) (rows : list row) : list row :=
  fold_left (fun t o => upsert now o t) data rows.

(** Every statement of the batch is accepted. *)
Fixpoint all_accepted (pg : pg_session) (k : nat) (data : list observation) : bool :=
  match data with
  | [] => true
  | o :: rest => accepts pg k o && all_accepted pg (S k) rest
  end.

(** The call commits: the connection, every statement and the commit
    succeed. *)
Definition committed (pg : pg_session) (data : list observation) : bool :=
  connects pg && all_accepted pg 0 data && commits pg.

(** ** Runs *)

(** [emits m r lg rq f]: from any world, computation [m] returns [r],
    appends the records [lg] to the log and the symbols [rq] to the
    requests, and turns the table into its image by [f]. *)
Definition emits {A : Type} (m : M A) (r : res A)
           (lg : list (level * message)) (rq : list string)
           (f : list row -> list row) : Prop :=
  forall w,
    m w = (r, mkWorld (f (table w)) (log w ++ lg) (requests w ++ rq)).

Definition normalize (entry : string) : string := upper (strip entry).

Definition blank (entry : string) : bool := String.eqb (normalize entry) "".

(** The value a computation returns from the empty world. *)
Definition eval {A : Type} (m : M A) : res A := fst (m empty_world).

(** The summary records of a log. *)
Definition summaries (l : list (level * message)) : list (nat * nat * nat) :=
  flat_map (fun r =>
              match snd r with
              | PipelineCompleted s n t => [(s, n, t)]
              | _ => []
              end) l.

(** What the entry at position [i] adds to the counters: nothing, or one
    success and the number of its records. It is read off the entry's own
    fetch, parse and store. *)
Definition contribution (env : environment) (i : nat) (entry : string) : option nat :=
  let sym := normalize entry in
  if blank entry then None
  else
    match eval (fetch_stock_data (http env i sym) sym) with
    | Ok raw =>
        if truthy raw then
          match eval (parse_stock_data sym raw) with
          | Ok (p :: ps) =>
              match eval (store_data (pg env i) (p :: ps)) with
              | Ok true => Some (length (p :: ps))
              | _ => None
              end
          | _ => None
          end
        else None
    | Raise _ => None
    end.

Fixpoint contributions (env : environment) (i : nat) (symbols : list string)
  : list (option nat) :=
  match symbols with
  | [] => []
  | entry :: rest => contribution env i entry :: contributions env (S i) rest
  end.

Definition add_contribution (c : counters) (x : option nat) : counters :=
  match x with
  | Some n => mkCounters (S (successful_symbols c)) (total_records c + n)
  | None => c
  end.

(** A body on which the two membership tests of [fetch_stock_data] are
    defined and no subscript follows a test on a non-dict. *)
Definition fetch_safe (answer : http_outcome) : bool :=
  match answer with
  | Json (VDict _) => true
  | Json (VList l) =>
      negb (existsb (fun v => match v with
                              | VStr s => String.eqb s "Error Message" || String.eqb s "Note"
                              | _ => false
                              end) l)
  | Json (VStr s) =>
      negb (infix_of (list_ascii_of_string "Error Message") (list_ascii_of_string s)
            || infix_of (list_ascii_of_string "Note") (list_ascii_of_string s))
  | Json _ => false
  | OtherRaises RequestException | OtherRaises ValueError => true
  | OtherRaises _ => false
  | GetRaises | StatusRaises | JsonRaises _ => true
  end.

(** The symbols that a run requests: the entries that are not blank, as
    the loop spells them. *)
Definition fetched (symbols : list string) : list string :=
  map normalize (filter (fun entry => negb (blank entry)) symbols).

Fixpoint all_fetch_safe (env : environment) (i : nat) (symbols : list string) : bool :=
  match symbols with
  | [] => true
  | entry :: rest =>
      (blank entry || fetch_safe (http env i (normalize entry)))
      && all_fetch_safe env (S i) rest
  end.

(** Exception [e] leaves the fetch on this answer: the [TypeError] of a
    membership test or a subscript on a body that is not a dict, or an
    exception of the library that neither handler names. *)
Definition raised_by (answer : http_outcome) (e : exn) : Prop :=
  (e = TypeError /\ exists data, answer = Json data /\ forall d, data <> VDict d)
  \/ (answer = OtherRaises e /\ e <> RequestException /\ e <> ValueError).

(** The exception of the fetch on an answer outside [fetch_safe]. *)
Definition fault (answer : http_outcome) : exn :=
  match answer with
  | OtherRaises e => e
  | _ => TypeError
  end.

(** The exception of the first entry, not blank, whose answer is outside
    [fetch_safe]. *)
Fixpoint first_fault (env : environment) (i : nat) (symbols : list string)
  : option exn :=
  match symbols with
  | [] => None
  | entry :: rest =>
      if blank entry || fetch_safe (http env i (normalize entry))
      then first_fault env (S i) rest
      else Some (fault (http env i (normalize entry)))
  end.

(** ** More vocabulary *)

(** The exception is not one that the inner handler of the parser names. *)
Definition escapes (e : exn) : bool :=
  match e with
  | ValueError | TypeError => false
  | _ => true
  end.

(** A record of the log is the warning about a skipped data point of
    [sym], for one of the timestamps [stamps]. *)
Definition skip_warning (sym : string) (stamps : list string)
           (r : level * message) : Prop :=
  exists ts e, r = (WARNING, DataPointFailed sym ts e) /\ In ts stamps.

(** What a row keeps through any write: its key, its time zone and its
    creation mark. *)
Definition same_marks (r r0 : row) : Prop :=
  row_key r = row_key r0
  /\ time_zone_col (cells r) = time_zone_col (cells r0)
  /\ created_at r = created_at r0.

(** A change of the table that respects the primary key, keeps every
    key, and keeps the marks of the row of a key. *)
Definition keeps (f : list row -> list row) : Prop :=
  forall t,
    (keys_unique t -> keys_unique (f t))
    /\ (forall k, In k (keys t) -> In k (keys (f t)))
    /\ (forall o r0, rows_of o t = [r0] ->
                     exists r, rows_of o (f t) = [r] /\ same_marks r r0).

(** What a statement for [o] does to a row, and what the statements of a
    batch do to it, when every key of the batch has its row. *)
Definition touch (o : observation) (r : row) : row :=
  if same_key o r then on_conflict o r else r.

Definition touched (data : list observation) (r : row) : row :=
  fold_left (fun r o => touch o r) data r.

(** The successes and the records in a list of contributions. *)
Definition successes (l : list (option nat)) : nat :=
  length (filter (fun x => match x with Some _ => true | None => false end) l).

Definition records (l : list (option nat)) : nat :=
  fold_right (fun x n => match x with Some k => (k + n)%nat | None => n end) 0%nat l.

(** The occurrences of a character in a string. *)
Definition occurrences (c : ascii) (s : string) : nat :=
  length (filter (Ascii.eqb c) (list_ascii_of_string s)).

End Props.

(* ===================================================================== *)
(** * Sample responses, sessions and runs                                 *)
(* ===================================================================== *)

Module Samples.
Import Py Pipeline Props.

(** A field set as the provider sends it: five strings. *)
Definition bar (o h l c v : string) : value :=
  VDict [("1. open", VStr o); ("2. high", VStr h); ("3. low", VStr l);
         ("4. close", VStr c); ("5. volume", VStr v)].

Definition meta_data : list (string * value) :=
  [("1. Information", VStr "Intraday (60min) open, high, low, close prices and volume");
   ("2. Symbol", VStr "AAPL");
   ("3. Last Refreshed", VStr "2024-01-05 16:00:00");
   ("4. Interval", VStr "60min");
   ("5. Time Zone", VStr "US/Eastern")].

(** Two well-formed entries around one whose high is not a number. *)
Definition series_one_bad : list (string * value) :=
  [("2024-01-05 16:00:00", bar "1.5" "2.5" "1.0" "2.0" "100");
   ("2024-01-05 15:00:00", bar "1.5" "n/a" "1.0" "2.0" "100");
   ("2024-01-05 14:00:00", bar "1.0" "2.0" "0.5" "1.5" "250")].

Definition body_one_bad : list (string * value) :=
  [("Meta Data", VDict meta_data); ("Time Series (60min)", VDict series_one_bad)].




(** An entry without the ["1. open"] field. *)
Definition fields_without_open : list (string * value) :=
  [("2. high", VStr "2.5"); ("3. low", VStr "1.0");
   ("4. close", VStr "2.0"); ("5. volume", VStr "100")].

Definition body_without_open : list (string * value) :=
  [("Meta Data", VDict meta_data);
   ("Time Series (60min)",
    VDict [("2024-01-05 16:00:00", VDict fields_without_open)])].

Definition four_pm : datetime := mkDatetime 2024 1 5 16 0 0.
Definition two_pm : datetime := mkDatetime 2024 1 5 14 0 0.

(** The doubles 0.5, 1.0, 1.5, 2.0, 2.5. *)
Definition f0_5 : pyfloat := S754_finite false 4503599627370496 (-53).
Definition f1_0 : pyfloat := S754_finite false 4503599627370496 (-52).
Definition f1_5 : pyfloat := S754_finite false 6755399441055744 (-52).
Definition f2_0 : pyfloat := S754_finite false 4503599627370496 (-51).
Definition f2_5 : pyfloat := S754_finite false 5629499534213120 (-51).

Definition refreshed : value := VStr "2024-01-05 16:00:00".
Definition eastern : value := VStr "US/Eastern".

Definition point_without_open : observation :=
  mkObservation "AAPL" four_pm zero f2_5 f1_0 f2_0 100 refreshed eastern.

(** A response with a time series and no metadata section. *)
Definition body_without_metadata : list (string * value) :=
  [("Time Series (60min)",
    VDict [("2024-01-05 16:00:00", bar "1.5" "2.5" "1.0" "2.0" "100")])].

Definition point_without_metadata : observation :=
  mkObservation "AAPL" four_pm f1_5 f2_5 f1_0 f2_0 100 VNone VNone.

(** A response with two well-formed entries. *)
Definition body_two_bars : list (string * value) :=
  [("Meta Data", VDict meta_data);
   ("Time Series (60min)",
    VDict [("2024-01-05 16:00:00", bar "1.5" "2.5" "1.0" "2.0" "100");
           ("2024-01-05 14:00:00", bar "1.0" "2.0" "0.5" "1.5" "250")])].

(** The same with the provider's rate-limit note added. *)
Definition body_note_and_bars : list (string * value) :=
  ("Note", VStr "Thank you for using Alpha Vantage! Please slow down.")
    :: body_two_bars.

(** Two writes of one key, at different prices. *)
Definition first_write : observation :=
  mkObservation "AAPL" four_pm f1_5 f2_5 f1_0 f2_0 100 refreshed eastern.

Definition second_write : observation :=
  mkObservation "AAPL" four_pm f1_0 f2_0 f0_5 f1_5 250
                (VStr "2024-01-05 17:00:00") (VStr "UTC").

(** An observation whose prices have more than four decimals: 1.23456,
    1.23455, 0.00005 and 0.1. *)
Definition fine_prices : observation :=
  mkObservation "IBM" four_pm
                (float_of_decimal false 123456 (-5))
                (float_of_decimal false 123455 (-5))
                (float_of_decimal false 5 (-5))
                (float_of_decimal false 1 (-1))
                100 refreshed eastern.

(** A session in which everything succeeds, at time [t]. *)
Definition session_ok (t : Z) : pg_session :=
  mkSession true (fun _ _ => true) true t.

(** A session whose second statement is rejected. *)
Definition session_rejects_second (t : Z) : pg_session :=
  mkSession true (fun k _ => negb (Nat.eqb k 1)) true t.

(** The provider answers AAPL with two bars, MSFT with the note, and any
    other symbol with the JSON text [null]. *)
Definition provider (sym : string) : http_outcome :=
  if String.eqb sym "AAPL" then Json (VDict body_two_bars)
  else if String.eqb sym "MSFT" then Json (VDict body_note_and_bars)
  else Json VNone.

Definition sample_env : environment :=
  mkEnv (fun _ sym => provider sym) (fun i => session_ok (Z.of_nat i)).

(** The answer for IBM is nested too deep for the decoder. *)
Definition nested_env : environment :=
  mkEnv (fun _ sym => if String.eqb sym "IBM" then OtherRaises RecursionError
                      else provider sym)
        (fun i => session_ok (Z.of_nat i)).

(** The worlds after the two writes, ten and twenty seconds in. *)
Definition after_first : world :=
  snd (store_data (session_ok 10) [first_write] empty_world).

Definition after_second : world :=
  snd (store_data (session_ok 20) [second_write] after_first).

(** The world after a run over three entries, one of them blank. *)
Definition after_run : world :=
  snd (fetch_and_process_stock_data sample_env "demo" ["aapl "; " "; "MSFT"]
                                    empty_world).

(** A body that holds both an error message and a note. *)
Definition body_error_and_note : list (string * value) :=
  [("Note", VStr "Please slow down.");
   ("Error Message", VStr "Invalid API call.")].

(** A time series whose second entry is a string, not a field set. *)
Definition body_string_entry : list (string * value) :=
  [("Meta Data", VDict meta_data);
   ("Time Series (60min)",
    VDict [("2024-01-05 16:00:00", bar "1.5" "2.5" "1.0" "2.0" "100");
           ("2024-01-05 15:00:00", VStr "n/a")])].

(** The observations of [body_two_bars]. *)
Definition bar_four_pm : observation :=
  mkObservation "AAPL" four_pm f1_5 f2_5 f1_0 f2_0 100 refreshed eastern.

Definition bar_two_pm : observation :=
  mkObservation "AAPL" two_pm f1_0 f2_0 f0_5 f1_5 250 refreshed eastern.

(** A later observation of another symbol. *)
Definition bar_msft : observation :=
  mkObservation "MSFT" four_pm f2_0 f2_5 f1_5 f2_0 75 refreshed eastern.

(** The provider answers every request with a JSON array. *)
Definition array_env : environment :=
  mkEnv (fun _ _ => Json (VList [VInt 1; VInt 2]))
        (fun i => session_ok (Z.of_nat i)).

(** A world whose table holds the row of MSFT, created at time 5. *)
Definition world_msft : world := mkWorld [mkRow (columns bar_msft) 5] [] [].

(** The worlds after a batch of two bars, and after the same batch again. *)
Definition after_batch : world :=
  snd (store_data (session_ok 30) [bar_four_pm; bar_two_pm] world_msft).

Definition after_batch_again : world :=
  snd (store_data (session_ok 40) [bar_four_pm; bar_two_pm] after_batch).

(** The process environment of the task: the key is set, the list of
    symbols is given with a trailing comma. *)
Definition sample_vars : Dag.environ :=
  fun name =>
    if String.eqb name "ALPHA_VANTAGE_API_KEY" then Some "demo"
    else if String.eqb name "STOCK_SYMBOLS" then Some "aapl, msft,"
    else None.

(** The same with a list of symbols that holds blanks and commas only. *)
Definition blank_vars : Dag.environ :=
  fun name =>
    if String.eqb name "ALPHA_VANTAGE_API_KEY" then Some "demo"
    else if String.eqb name "STOCK_SYMBOLS" then Some " , ,"
    else None.

End Samples.

(* ===================================================================== *)
(** * Properties                                                          *)
(* ===================================================================== *)

Import Py Pipeline Props Samples.

Arguments float : simpl never.
Arguments int : simpl never.
Arguments strptime : simpl never.

(** ** Results *)

Section Results.
Context {A B : Type}.

Lemma bind_ok (m : res A) (k : A -> res B) (b : B) :
  bind m k = Ok b -> exists a, m = Ok a /\ k a = Ok b.
Proof.
  destruct m as [a | e]; simpl; intros H; [eauto | discriminate].
Qed.

End Results.

Lemma get_ok (o : value) (k : string) (dflt x : value) :
  get o k dflt = Ok x ->
  exists d, o = VDict d /\ x = match lookup k d with Some v => v | None => dflt end.
Proof.
  destruct o; simpl; try discriminate.
  intros H. injection H as <-. eauto.
Qed.

Lemma float_zero : float (VInt 0) = Ok zero.
Proof. reflexivity. Qed.

Lemma int_zero : int (VInt 0) = Ok 0.
Proof. reflexivity. Qed.

Lemma price_default (d : list (string * value)) (k : string) (p : pyfloat) :
  float (match lookup k d with Some v => v | None => VInt 0 end) = Ok p ->
  price_from d k p.
Proof.
  unfold price_from. destruct (lookup k d); [tauto |].
  rewrite float_zero. congruence.
Qed.

Lemma volume_default (d : list (string * value)) (n : Z) :
  int (match lookup "5. volume" d with Some v => v | None => VInt 0 end) = Ok n ->
  volume_from d n.
Proof.
  unfold volume_from. destruct (lookup "5. volume" d); [tauto |].
  rewrite int_zero. congruence.
Qed.

(** A data point that is built comes from a field set and a metadata
    dict, field by field. *)
Lemma data_point_ok (sym : string) (metadata : value) (ts : string)
      (values : value) (o : observation) :
  data_point sym metadata ts values = Ok o ->
  exists meta, metadata = VDict meta /\ built_from sym meta (ts, values) o.
Proof.
  unfold data_point. intros H.
  apply bind_ok in H as (t & Ht & H).
  apply bind_ok in H as (v1 & Hv1 & H). apply bind_ok in H as (p1 & Hp1 & H).
  apply bind_ok in H as (v2 & Hv2 & H). apply bind_ok in H as (p2 & Hp2 & H).
  apply bind_ok in H as (v3 & Hv3 & H). apply bind_ok in H as (p3 & Hp3 & H).
  apply bind_ok in H as (v4 & Hv4 & H). apply bind_ok in H as (p4 & Hp4 & H).
  apply bind_ok in H as (v5 & Hv5 & H). apply bind_ok in H as (n & Hn & H).
  apply bind_ok in H as (lr & Hlr & H). apply bind_ok in H as (tz & Htz & H).
  injection H as <-.
  apply get_ok in Hv1 as (d & -> & ->).
  apply get_ok in Hv2 as (d2 & E2 & ->). injection E2 as <-.
  apply get_ok in Hv3 as (d3 & E3 & ->). injection E3 as <-.
  apply get_ok in Hv4 as (d4 & E4 & ->). injection E4 as <-.
  apply get_ok in Hv5 as (d5 & E5 & ->). injection E5 as <-.
  apply get_ok in Hlr as (meta & -> & ->).
  apply get_ok in Htz as (m2 & E & ->). injection E as <-.
  exists meta. split; [reflexivity |].
  exists d. simpl.
  repeat split; auto using price_default, volume_default.
Qed.

(** ** The parser *)


Lemma parse_points_kept (sym : string) (metadata : value)
      (entries : list (string * value)) :
  forall acc w l w',
    parse_points sym metadata entries acc w = (Ok l, w') ->
    exists kept l',
      l = (acc ++ l')%list
      /\ subseq kept entries
      /\ Forall2 (fun e o => data_point sym metadata (fst e) (snd e) = Ok o) kept l'.
Proof.
  induction entries as [| [ts v] rest IH]; intros acc w l w' H; simpl in H.
  - injection H as <- <-. exists [], []. rewrite app_nil_r.
    repeat split; constructor.
  - destruct (data_point sym metadata ts v) as [point | e] eqn:E.
    + apply IH in H as (kept & l' & -> & Hs & HF).
      exists ((ts, v) :: kept), (point :: l').
      rewrite <- app_assoc. repeat split; [now constructor | now constructor].
    + destruct e; try discriminate;
        (apply IH in H as (kept & l' & -> & Hs & HF);
         exists kept, l'; repeat split; [now constructor | assumption]).
Qed.

Lemma built_from_points (sym : string) (meta : list (string * value))
      (kept : list (string * value)) (l : list observation) :
  Forall2 (fun e o => data_point sym (VDict meta) (fst e) (snd e) = Ok o) kept l ->
  Forall2 (built_from sym meta) kept l.
Proof.
  induction 1 as [| [ts v] o kept l H _ IH]; constructor; [| assumption].
  apply data_point_ok in H as (meta' & E & H). now injection E as <-.
Qed.

(** What the parser returns: nothing, or the data points of some entries
    of the time series, in their order. *)
Lemma parse_stock_data_kept (sym : string) (raw : value) (w : world) :
  exists l w',
    parse_stock_data sym raw w = (Ok l, w')
    /\ (l = []
        \/ exists d entries meta kept,
             raw = VDict d
             /\ section "Time Series (60min)" d = VDict entries
             /\ section "Meta Data" d = VDict meta
             /\ subseq kept entries
             /\ Forall2 (built_from sym meta) kept l).
Proof.
  unfold parse_stock_data, try_except.
  destruct (parse_body sym raw w) as [[l | e] w1] eqn:E.
  - exists l, w1. split; [reflexivity |].
    unfold parse_body, mbind, lift in E.
    destruct raw as [| | | | | | d]; try discriminate. simpl in E.
    fold (section "Time Series (60min)" d) in E.
    fold (section "Meta Data" d) in E.
    destruct (section "Time Series (60min)" d) as [| | | | | | entries] eqn:Es;
      try discriminate.
    simpl in E.
    apply parse_points_kept in E as (kept & l' & -> & Hs & HF). simpl.
    destruct HF as [| [ts v] o kept l' H HF]; [now left | right].
    destruct (data_point_ok _ _ _ _ _ H) as (meta & Em & _).
    exists d, entries, meta, ((ts, v) :: kept).
    repeat split; try assumption.
    rewrite Em in *. apply built_from_points. now constructor.
  - eexists _, _. split; [reflexivity | now left].
Qed.

(** C1 (as amended). Every call of the parser returns a list; each
    observation of the list is the data point of an entry of its own in the
    time series, taken in order, whose timestamp parses in the wire format
    and whose five fields are each either absent, and then read as zero, or
    converted by [float] / [int]. An entry whose timestamp or whose present
    field does not convert has no observation. *)
Theorem parse_builds_from_convertible_entries
        (sym : string) (raw : value) (w : world) :
  exists l w',
    parse_stock_data sym raw w = (Ok l, w')
    /\ (l = []
        \/ exists d entries meta kept,
             raw = VDict d
             /\ section "Time Series (60min)" d = VDict entries
             /\ section "Meta Data" d = VDict meta
             /\ subseq kept entries
             /\ Forall2 (built_from sym meta) kept l).
Proof. exact (parse_stock_data_kept sym raw w). Qed.

(** *** Well-formed and malformed entries *)












(** C5 (as amended). Without a time-series section the parser returns the
    empty list and logs nothing. Without a metadata section it returns
    what it returns for an empty metadata section: the observations of the
    time series, each with no refresh time and no time zone. *)
Theorem parse_absent_sections
        (sym : string) (d : list (string * value)) (w : world) :
  (lookup "Time Series (60min)" d = None ->
   parse_stock_data sym (VDict d) w = (Ok [], w))
  /\ (lookup "Meta Data" d = None ->
      exists l w',
        parse_stock_data sym (VDict d) w = (Ok l, w')
        /\ parse_stock_data sym (VDict (("Meta Data", VDict []) :: d)) w = (Ok l, w')
        /\ Forall (fun o => last_refreshed o = VNone /\ time_zone o = VNone) l).
Proof.
  split; intros H.
  - unfold parse_stock_data, try_except, parse_body, mbind, lift. simpl.
    now rewrite H.
  - destruct (parse_stock_data_kept sym (VDict d) w)
      as (l & w' & E & Hl).
    exists l, w'. split; [exact E |]. split.
    + rewrite <- E.
      unfold parse_stock_data, try_except, parse_body, mbind, lift. simpl.
      now rewrite H.
    + destruct Hl as [-> | (d' & entries & meta & kept & Ed & _ & Em & _ & HF)];
        [constructor |].
      injection Ed as <-. unfold section in Em. rewrite H in Em.
      injection Em as <-.
      clear E. induction HF as [| e o kept l Hb _ IH]; constructor; [| exact IH].
      destruct Hb as (? & _ & _ & _ & _ & _ & _ & _ & _ & -> & ->). auto.
Qed.

(** ** The store *)

Lemma datetime_eqb_eq (a b : datetime) : datetime_eqb a b = true <-> a = b.
Proof.
  unfold datetime_eqb. rewrite !andb_true_iff, !Z.eqb_eq.
  destruct a, b; simpl. split.
  - intros (((((-> & ->) & ->) & ->) & ->) & ->). reflexivity.
  - intros H. injection H as -> -> -> -> -> ->. tauto.
Qed.

Lemma same_key_iff (o : observation) (r : row) :
  same_key o r = true <-> key_of o = row_key r.
Proof.
  unfold same_key, key_of, row_key.
  rewrite andb_true_iff, String.eqb_eq, datetime_eqb_eq.
  split; [intros (-> & ->); reflexivity | intros H; injection H; auto].
Qed.

Lemma same_key_key (a b : observation) (r : row) :
  key_of a = key_of b -> same_key a r = same_key b r.
Proof.
  intros H. unfold same_key.
  change (symbol_col (columns a)) with (fst (key_of a)).
  change (timestamp_col (columns a)) with (snd (key_of a)).
  now rewrite H.
Qed.

Lemma rows_of_key (a b : observation) (rows : list row) :
  key_of a = key_of b -> rows_of a rows = rows_of b rows.
Proof.
  intros H. unfold rows_of. apply filter_ext. intros r. now apply same_key_key.
Qed.

Lemma key_dec (a b : observation) : {key_of a = key_of b} + {key_of a <> key_of b}.
Proof.
  unfold key_of. repeat decide equality.
Qed.

Lemma on_conflict_key (o : observation) (r : row) :
  row_key (on_conflict o r) = row_key r.
Proof. reflexivity. Qed.

Lemma on_conflict_holds (o : observation) (r : row) : holds (on_conflict o r) o.
Proof. unfold holds. repeat split; reflexivity. Qed.

Lemma rows_of_none (o : observation) (rows : list row) :
  ~ In (key_of o) (keys rows) -> rows_of o rows = [].
Proof.
  induction rows as [| r rows IH]; simpl; intros H; [reflexivity |].
  destruct (same_key o r) eqn:E.
  - apply same_key_iff in E. exfalso. apply H. left. now symmetry.
  - apply IH. intros Hin. apply H. now right.
Qed.

Lemma upsert_keys (now : Z) (o : observation) (rows : list row) :
  keys (upsert now o rows)
  = if existsb (same_key o) rows then keys rows else (keys rows ++ [key_of o])%list.
Proof.
  induction rows as [| r rows IH]; simpl; [reflexivity |].
  destruct (same_key o r); simpl; [reflexivity |].
  rewrite IH. now destruct (existsb (same_key o) rows).
Qed.

Lemma upsert_unique (now : Z) (o : observation) (rows : list row) :
  keys_unique rows -> keys_unique (upsert now o rows).
Proof.
  unfold keys_unique. intros H. rewrite upsert_keys.
  destruct (existsb (same_key o) rows) eqn:E; [assumption |].
  apply NoDup_app; [assumption | repeat constructor; intros [] | ].
  intros k Hk [<- | []].
  unfold keys in Hk. apply in_map_iff in Hk as (r & Hr & Hin).
  assert (Ht : existsb (same_key o) rows = true).
  { apply existsb_exists. exists r. split; [assumption |].
    now apply same_key_iff. }
  congruence.
Qed.

(** The row of the key just written: there is one, it holds the written
    values, and its creation mark is the old one when the key was there. *)
Lemma rows_of_upsert_same (now : Z) (o : observation) (rows : list row) :
  keys_unique rows ->
  exists r,
    rows_of o (upsert now o rows) = [r]
    /\ holds r o
    /\ created_at r = match rows_of o rows with
                      | [] => now
                      | r0 :: _ => created_at r0
                      end.
Proof.
  unfold keys_unique.
  induction rows as [| r rows IH]; simpl; intros H.
  - exists (mkRow (columns o) now).
    assert (E : same_key o (mkRow (columns o) now) = true) by now apply same_key_iff.
    rewrite E. unfold holds. simpl. tauto.
  - inversion H as [| k ks Hnot Hnd]; subst.
    destruct (same_key o r) eqn:E; simpl.
    + assert (E' : same_key o (on_conflict o r) = true).
      { apply same_key_iff. rewrite on_conflict_key. now apply same_key_iff. }
      rewrite E'. exists (on_conflict o r).
      split; [| split; [apply on_conflict_holds | reflexivity]].
      f_equal. apply rows_of_none.
      apply same_key_iff in E. now rewrite E.
    + rewrite E. now apply IH.
Qed.

Lemma rows_of_upsert_other (now : Z) (o o' : observation) (rows : list row) :
  key_of o' <> key_of o ->
  rows_of o' (upsert now o rows) = rows_of o' rows.
Proof.
  intros Hk.
  induction rows as [| r rows IH]; simpl.
  - destruct (same_key o' (mkRow (columns o) now)) eqn:E; [| reflexivity].
    apply same_key_iff in E. contradiction.
  - destruct (same_key o r) eqn:E; simpl.
    + apply same_key_iff in E.
      assert (E1 : same_key o' r = false).
      { destruct (same_key o' r) eqn:E1; [| reflexivity].
        apply same_key_iff in E1. congruence. }
      assert (E2 : same_key o' (on_conflict o r) = false).
      { destruct (same_key o' (on_conflict o r)) eqn:E2; [| reflexivity].
        apply same_key_iff in E2. rewrite on_conflict_key in E2. congruence. }
      now rewrite E1, E2.
    + now rewrite IH.
Qed.

(** A row that is there stays, alone, with its creation mark. *)
Lemma upsert_keeps_created_at (now : Z) (o o' : observation) (rows : list row)
      (r0 : row) :
  keys_unique rows ->
  rows_of o' rows = [r0] ->
  exists r, rows_of o' (upsert now o rows) = [r] /\ created_at r = created_at r0.
Proof.
  intros Hu H0.
  destruct (key_dec o' o) as [Hk | Hk].
  - destruct (rows_of_upsert_same now o rows Hu) as (r & Hr & _ & Hc).
    rewrite <- (rows_of_key o' o (upsert now o rows) Hk) in Hr.
    rewrite <- (rows_of_key o' o rows Hk) in Hc. rewrite H0 in Hc. eauto.
  - rewrite (rows_of_upsert_other _ _ _ _ Hk). eauto.
Qed.

Lemma written_unique (now : Z) (data : list observation) :
  forall rows, keys_unique rows -> keys_unique (written now data rows).
Proof.
  unfold written.
  induction data as [| o data IH]; simpl; intros rows H; [assumption |].
  apply IH. now apply upsert_unique.
Qed.

Lemma written_keeps_created_at (now : Z) (o' : observation)
      (data : list observation) :
  forall rows r0,
    keys_unique rows ->
    rows_of o' rows = [r0] ->
    exists r, rows_of o' (written now data rows) = [r]
              /\ created_at r = created_at r0.
Proof.
  unfold written.
  induction data as [| o data IH]; simpl; intros rows r0 Hu H0; [eauto |].
  destruct (upsert_keeps_created_at now o o' rows r0 Hu H0) as (r1 & H1 & E1).
  destruct (IH _ r1 (upsert_unique now o rows Hu) H1) as (r & Hr & E).
  exists r. split; [assumption | congruence].
Qed.

(** After a batch, each of its keys has one row; the creation mark is the
    old one, or the time of the batch for a new key. *)
Lemma written_one_row (now : Z) (o' : observation) (data : list observation) :
  forall rows,
    keys_unique rows ->
    In o' data ->
    exists r,
      rows_of o' (written now data rows) = [r]
      /\ created_at r = match rows_of o' rows with
                        | [] => now
                        | r0 :: _ => created_at r0
                        end.
Proof.
  induction data as [| o data IH]; simpl; intros rows Hu Hin; [contradiction |].
  destruct (key_dec o' o) as [Hk | Hk].
  - destruct (rows_of_upsert_same now o rows Hu) as (r1 & H1 & _ & E1).
    rewrite <- (rows_of_key o' o (upsert now o rows) Hk) in H1.
    rewrite <- (rows_of_key o' o rows Hk) in E1.
    destruct (written_keeps_created_at now o' data _ r1
                (upsert_unique now o rows Hu) H1) as (r & Hr & E).
    exists r. split; [exact Hr | congruence].
  - destruct Hin as [-> | Hin]; [contradiction Hk; reflexivity |].
    destruct (IH _ (upsert_unique now o rows Hu) Hin) as (r & Hr & E).
    exists r. split; [exact Hr |].
    now rewrite (rows_of_upsert_other _ _ _ _ Hk) in E.
Qed.

Lemma written_other_keys (now : Z) (o' : observation) (data : list observation) :
  Forall (fun o => key_of o <> key_of o') data ->
  forall rows, rows_of o' (written now data rows) = rows_of o' rows.
Proof.
  unfold written.
  induction 1 as [| o data Ho _ IH]; simpl; intros rows; [reflexivity |].
  rewrite IH. apply rows_of_upsert_other. congruence.
Qed.

(** The values of a key after a batch are those of its last statement. *)
Lemma written_last_wins (now : Z) (o : observation) (pre post : list observation)
      (rows : list row) :
  keys_unique rows ->
  Forall (fun o' => key_of o' <> key_of o) post ->
  exists r, rows_of o (written now (pre ++ o :: post) rows) = [r] /\ holds r o.
Proof.
  intros Hu Hpost. unfold written. rewrite fold_left_app. simpl.
  fold (written now pre rows).
  fold (written now post (upsert now o (written now pre rows))).
  rewrite (written_other_keys now o post Hpost).
  destruct (rows_of_upsert_same now o (written now pre rows)
              (written_unique now pre rows Hu)) as (r & Hr & Hh & _).
  eauto.
Qed.

(** *** One call of [store_data] *)

Lemma execute_all_spec (pg : pg_session) (data : list observation) :
  forall k conn w,
    execute_all pg k data conn w
    = (if all_accepted pg k data then Ok (written (now pg) data conn)
       else Raise DatabaseError, w).
Proof.
  induction data as [| o data IH]; intros k conn w; simpl; [reflexivity |].
  unfold mbind, execute.
  destruct (accepts pg k o); simpl; [| reflexivity].
  unfold ret. apply IH.
Qed.

Lemma store_data_spec (pg : pg_session) (data : list observation) (w : world) :
  data <> [] ->
  store_data pg data w
  = if committed pg data
    then (Ok true,
          mkWorld (written (now pg) data (table w))
                  (log w ++ [(INFO, StoredRecords (length data))])
                  (requests w))
    else (Ok false,
          mkWorld (table w)
                  (log w ++ [(ERROR, StoreFailed DatabaseError)])
                  (requests w)).
Proof.
  destruct data as [| o data]; [congruence | intros _].
  unfold store_data, committed, try_except, mbind, get_conn.
  destruct (connects pg); cbv beta iota; [| reflexivity].
  rewrite execute_all_spec.
  destruct (all_accepted pg 0 (o :: data)); cbv beta iota; [| reflexivity].
  unfold commit. destruct (commits pg); reflexivity.
Qed.

Lemma written_has_row (now : Z) (o' : observation) (data : list observation) :
  forall rows,
    In o' data \/ existsb (same_key o') rows = true ->
    existsb (same_key o') (written now data rows) = true.
Proof.
  assert (Hstep : forall o rows,
             existsb (same_key o') rows = true ->
             existsb (same_key o') (upsert now o rows) = true).
  { intros o rows. induction rows as [| r rows IH]; simpl; [discriminate |].
    destruct (same_key o r) eqn:E; simpl.
    - rewrite orb_true_iff. intros [H | H]; rewrite orb_true_iff; [left | now right].
      apply same_key_iff. rewrite on_conflict_key. now apply same_key_iff.
    - rewrite !orb_true_iff. intros [H | H]; auto. }
  assert (Hnew : forall rows, existsb (same_key o') (upsert now o' rows) = true).
  { intros rows. induction rows as [| r rows IH]; simpl.
    - rewrite orb_false_r. now apply same_key_iff.
    - destruct (same_key o' r) eqn:E; simpl.
      + rewrite orb_true_iff. left.
        apply same_key_iff. rewrite on_conflict_key. now apply same_key_iff.
      + now rewrite E. }
  unfold written.
  induction data as [| o data IH]; simpl; intros rows [H | H];
    try contradiction; try assumption.
  - destruct H as [-> | H]; apply IH; [right; apply Hnew | now left].
  - apply IH. right. now apply Hstep.
Qed.

(** C7. A call of [store_data] on a non-empty batch either commits the
    whole batch and returns [True] (each observation has its row, and the
    row of a key holds the values of the key's last statement as the
    columns take them, the prices rounded to four decimals), or, when the
    connection, a statement or the commit fails, returns [False] and
    leaves the table as it was. *)
Theorem store_commits_all_or_nothing
        (pg : pg_session) (data : list observation) (w : world)
        (Hne : data <> []) :
  (committed pg data = true
   /\ exists w',
        store_data pg data w = (Ok true, w')
        /\ table w' = written (now pg) data (table w)
        /\ (forall o, In o data -> existsb (same_key o) (table w') = true)
        /\ (keys_unique (table w) ->
            forall pre o post,
              data = (pre ++ o :: post)%list ->
              Forall (fun o' => key_of o' <> key_of o) post ->
              exists r, rows_of o (table w') = [r] /\ holds r o))
  \/ (committed pg data = false
      /\ exists w',
           store_data pg data w = (Ok false, w')
           /\ table w' = table w).
Proof.
  rewrite (store_data_spec pg data w Hne).
  destruct (committed pg data); [left | right]; split; try reflexivity.
  - eexists. split; [reflexivity |]. simpl. split; [reflexivity |]. split.
    + intros o Ho. apply written_has_row. now left.
    + intros Hu pre o post -> Hpost. now apply written_last_wins.
  - eexists. split; reflexivity.
Qed.

(** C2. Two successful calls of [store_data] that write the same key,
    the table obeying its primary key before them: after the second call
    the key has exactly one row; the row holds the prices of the later
    write, rounded to the four decimals of their columns, its volume and
    the server's reading of its refresh time, and the creation mark that
    the row had after the earlier call, which is the time of the earlier
    call when the key was new then; and the primary key still holds. *)
Theorem upsert_keeps_one_row_per_key
        (pg1 pg2 : pg_session) (d1 d2 pre post : list observation)
        (o1 o2 : observation) (w w1 w2 : world)
        (Hunique : keys_unique (table w))
        (Hfirst : store_data pg1 d1 w = (Ok true, w1))
        (Hsecond : store_data pg2 d2 w1 = (Ok true, w2))
        (Hin1 : In o1 d1)
        (Hin2 : d2 = (pre ++ o2 :: post)%list)
        (Hlast : Forall (fun o => key_of o <> key_of o2) post)
        (Hkey : key_of o1 = key_of o2) :
  exists r1 r2,
    rows_of o1 (table w1) = [r1]
    /\ rows_of o2 (table w2) = [r2]
    /\ holds r2 o2
    /\ created_at r2 = created_at r1
    /\ (rows_of o1 (table w) = [] -> created_at r1 = now pg1)
    /\ keys_unique (table w1)
    /\ keys_unique (table w2).
Proof.
  assert (Hne1 : d1 <> []) by (intros ->; contradiction).
  assert (Hne2 : d2 <> []) by (subst d2; destruct pre; discriminate).
  rewrite (store_data_spec pg1 d1 w Hne1) in Hfirst.
  destruct (committed pg1 d1); [| discriminate]. injection Hfirst as <-.
  rewrite (store_data_spec pg2 d2 _ Hne2) in Hsecond.
  destruct (committed pg2 d2); [| discriminate]. injection Hsecond as <-.
  simpl table.
  pose proof (written_unique (now pg1) d1 _ Hunique) as Hu1.
  destruct (written_one_row (now pg1) o1 d1 _ Hunique Hin1) as (r1 & Hr1 & Hc1).
  destruct (written_keeps_created_at (now pg2) o1 d2 _ r1 Hu1 Hr1)
    as (r2 & Hr2 & Hc2).
  rewrite (rows_of_key o1 o2 _ Hkey) in Hr2.
  exists r1, r2.
  split; [exact Hr1 |]. split; [exact Hr2 |]. split; [| split; [exact Hc2 |]].
  - subst d2.
    destruct (written_last_wins (now pg2) o2 pre post _ Hu1 Hlast)
      as (r & Hr & Hh).
    rewrite Hr in Hr2. now injection Hr2 as <-.
  - split; [| split; [exact Hu1 | now apply written_unique]].
    intros Hnone. now rewrite Hnone in Hc1.
Qed.

(** ** Computations that do the same from every world *)

Section Emits.
Context {A B : Type}.

Lemma emits_ret (a : A) : emits (ret a) (Ok a) [] [] (fun t => t).
Proof. intros [t l q]. unfold ret. simpl. now rewrite !app_nil_r. Qed.

Lemma emits_raise (e : exn) : emits (@raise A e) (Raise e) [] [] (fun t => t).
Proof. intros [t l q]. unfold raise. simpl. now rewrite !app_nil_r. Qed.

Lemma emits_lift (r : res A) : emits (lift r) r [] [] (fun t => t).
Proof. intros [t l q]. unfold lift. simpl. now rewrite !app_nil_r. Qed.

Lemma emits_bind (m : M A) (k : A -> M B) (a : A) (r : res B)
      lg1 rq1 f1 lg2 rq2 f2 :
  emits m (Ok a) lg1 rq1 f1 ->
  emits (k a) r lg2 rq2 f2 ->
  emits (mbind m k) r (lg1 ++ lg2) (rq1 ++ rq2) (fun t => f2 (f1 t)).
Proof.
  intros H1 H2 w. unfold mbind. rewrite H1, H2. simpl.
  now rewrite !app_assoc.
Qed.

Lemma emits_bind_raise (m : M A) (k : A -> M B) (e : exn) lg rq f :
  emits m (Raise e) lg rq f ->
  emits (mbind m k) (Raise e) lg rq f.
Proof. intros H w. unfold mbind. now rewrite H. Qed.

Lemma emits_try_ok (m : M A) (h : exn -> option (M A)) (a : A) lg rq f :
  emits m (Ok a) lg rq f -> emits (try_except m h) (Ok a) lg rq f.
Proof. intros H w. unfold try_except. now rewrite H. Qed.

Lemma emits_try_handled (m : M A) (h : exn -> option (M A)) (e : exn)
      (k : M A) (r : res A) lg1 rq1 f1 lg2 rq2 f2 :
  emits m (Raise e) lg1 rq1 f1 ->
  h e = Some k ->
  emits k r lg2 rq2 f2 ->
  emits (try_except m h) r (lg1 ++ lg2) (rq1 ++ rq2) (fun t => f2 (f1 t)).
Proof.
  intros H1 Hh H2 w. unfold try_except. rewrite H1, Hh, H2. simpl.
  now rewrite !app_assoc.
Qed.

Lemma emits_try_unhandled (m : M A) (h : exn -> option (M A)) (e : exn)
      lg rq f :
  emits m (Raise e) lg rq f ->
  h e = None ->
  emits (try_except m h) (Raise e) lg rq f.
Proof. intros H Hh w. unfold try_except. now rewrite H, Hh. Qed.

Lemma emits_eval (m : M A) (r : res A) lg rq f :
  emits m r lg rq f -> eval m = r.
Proof. intros H. unfold eval. now rewrite H. Qed.
End Emits.

Lemma emits_logger (l : level) (m : message) :
  emits (logger l m) (Ok tt) [(l, m)] [] (fun t => t).
Proof. intros [t lg q]. unfold logger. simpl. now rewrite app_nil_r. Qed.

Lemma emits_request (answer : http_outcome) (sym : string) :
  exists r, emits (request answer sym) r [] [sym] (fun t => t).
Proof.
  destruct answer as [| | [] | e |]; eexists; intros [t lg q];
    unfold request; simpl; rewrite app_nil_r; reflexivity.
Qed.

(** *** The fetch *)

(** The fetch makes one request and leaves the table alone. *)
Lemma fetch_emits (answer : http_outcome) (sym : string) :
  exists r lg, emits (fetch_stock_data answer sym) r lg [sym] (fun t => t).
Proof.
  assert (Hw : forall w : world,
             fetch_stock_data answer sym w
             = (eval (fetch_stock_data answer sym),
                mkWorld (table w)
                        (log w ++ log (snd (fetch_stock_data answer sym empty_world)))
                        (requests w ++ [sym]))).
  { intros [t lg q].
    unfold eval, fetch_stock_data, try_except, mbind, request, lift, logger, ret.
    simpl.
    destruct answer as [| | [] | e | data]; try (now rewrite ?app_nil_r);
      [destruct e; simpl; now rewrite ?app_nil_r |].
    destruct (contains "Error Message" data) as [[] | e]; simpl.
    - destruct (subscript data "Error Message") as [v | e]; simpl;
        [reflexivity | destruct e; simpl; now rewrite ?app_nil_r].
    - destruct (contains "Note" data) as [[] | e]; simpl.
      + destruct (subscript data "Note") as [v | e]; simpl;
          [reflexivity | destruct e; simpl; now rewrite ?app_nil_r].
      + now rewrite app_nil_r.
      + destruct e; simpl; now rewrite ?app_nil_r.
    - destruct e; simpl; now rewrite ?app_nil_r. }
  eexists _, _. exact Hw.
Qed.

Lemma has_key_subscript (k : string) (d : list (string * value)) :
  has_key k d = true -> exists v, subscript (VDict d) k = Ok v.
Proof.
  unfold has_key, subscript. destruct (lookup k d); [eauto | discriminate].
Qed.

(** A transport failure and an undecodable body give [None]. *)
Lemma fetch_transport_failure (answer : http_outcome) (sym : string) :
  match answer with
  | Json _ => False
  | OtherRaises e => e = RequestException \/ e = ValueError
  | _ => True
  end ->
  exists lg, emits (fetch_stock_data answer sym) (Ok VNone) lg [sym] (fun t => t).
Proof.
  intros H.
  destruct answer as [| | [] | e | data]; try contradiction;
    try (destruct H as [-> | ->]);
    eexists; intros [t lg q];
    unfold fetch_stock_data, try_except, mbind, request, lift, logger, ret;
    simpl; reflexivity.
Qed.

(** A dict with an error message gives [None]. *)
Lemma fetch_error_message (d : list (string * value)) (sym : string) :
  has_key "Error Message" d = true ->
  exists lg, emits (fetch_stock_data (Json (VDict d)) sym) (Ok VNone) lg [sym]
                   (fun t => t).
Proof.
  intros H. destruct (has_key_subscript _ _ H) as (v & Ev).
  eexists. intros [t lg q].
  unfold fetch_stock_data, try_except, mbind, request, lift, logger, ret, contains.
  rewrite H, Ev. reflexivity.
Qed.

(** A dict with a note gives [None], whatever else it holds. *)
Lemma fetch_note (d : list (string * value)) (sym : string) :
  has_key "Note" d = true ->
  exists lg, emits (fetch_stock_data (Json (VDict d)) sym) (Ok VNone) lg [sym]
                   (fun t => t).
Proof.
  intros H.
  destruct (has_key "Error Message" d) eqn:He; [now apply fetch_error_message |].
  destruct (has_key_subscript _ _ H) as (v & Ev).
  eexists. intros [t lg q].
  unfold fetch_stock_data, try_except, mbind, request, lift, logger, ret, contains.
  rewrite He, H, Ev. reflexivity.
Qed.

(** A dict with neither key is returned as it is. *)
Lemma fetch_data (d : list (string * value)) (sym : string) :
  has_key "Error Message" d = false ->
  has_key "Note" d = false ->
  emits (fetch_stock_data (Json (VDict d)) sym) (Ok (VDict d)) [] [sym] (fun t => t).
Proof.
  intros He Hn [t lg q].
  unfold fetch_stock_data, try_except, mbind, request, lift, logger, ret, contains.
  rewrite He, Hn. simpl. now rewrite app_nil_r.
Qed.

(** On the bodies of [fetch_safe] the fetch returns a value. *)
Lemma fetch_safe_returns (answer : http_outcome) (sym : string) :
  fetch_safe answer = true ->
  exists v lg, emits (fetch_stock_data answer sym) (Ok v) lg [sym] (fun t => t).
Proof.
  intros Hs.
  destruct answer as [| | b | e | data].
  - destruct (fetch_transport_failure GetRaises sym I) as (lg & H); eauto.
  - destruct (fetch_transport_failure StatusRaises sym I) as (lg & H); eauto.
  - destruct (fetch_transport_failure (JsonRaises b) sym I) as (lg & H); eauto.
  - assert (He : e = RequestException \/ e = ValueError)
      by (destruct e; try discriminate; auto).
    destruct (fetch_transport_failure (OtherRaises e) sym He) as (lg & H); eauto.
  - destruct data as [| | | | s | l | d]; try discriminate.
    + unfold fetch_safe in Hs.
      apply negb_true_iff, orb_false_iff in Hs as (H1 & H2).
      exists (VStr s), []. intros [t lg q].
      unfold fetch_stock_data, try_except, mbind, request, lift, logger, ret, contains.
      rewrite H1, H2. simpl. now rewrite app_nil_r.
    + unfold fetch_safe in Hs. apply negb_true_iff in Hs.
      assert (H1 : existsb (fun v => match v with
                                     | VStr s => String.eqb s "Error Message"
                                     | _ => false
                                     end) l = false
                   /\ existsb (fun v => match v with
                                        | VStr s => String.eqb s "Note"
                                        | _ => false
                                        end) l = false).
      { induction l as [| x l IH]; simpl in *; [auto |].
        apply orb_false_iff in Hs as (Hx & Hl). destruct (IH Hl) as (I1 & I2).
        rewrite I1, I2. destruct x; auto.
        apply orb_false_iff in Hx as (-> & ->). auto. }
      destruct H1 as (H1 & H2).
      exists (VList l), []. intros [t lg q].
      unfold fetch_stock_data, try_except, mbind, request, lift, logger, ret, contains.
      rewrite H1, H2. simpl. now rewrite app_nil_r.
    + destruct (has_key "Error Message" d) eqn:He;
        [destruct (fetch_error_message d sym He); eauto |].
      destruct (has_key "Note" d) eqn:Hn;
        [destruct (fetch_note d sym Hn); eauto |].
      exists (VDict d), []. now apply fetch_data.
Qed.

Lemma emits_eq {A : Type} (m : M A) (r : res A) lg lg' rq rq' f f' :
  emits m r lg rq f ->
  lg = lg' -> rq = rq' -> (forall t, f t = f' t) ->
  emits m r lg' rq' f'.
Proof. intros H <- <- Hf w. rewrite H. now rewrite Hf. Qed.

(** Two descriptions of one computation agree. *)
Lemma emits_result {A : Type} (m : M A) (r r' : res A) lg lg' rq rq' f f' :
  emits m r lg rq f -> emits m r' lg' rq' f' -> r = r'.
Proof.
  intros H H'. apply emits_eval in H, H'. congruence.
Qed.

Lemma emits_lift_ok {A B : Type} (a : A) (k : A -> M B) (r : res B) lg rq f :
  emits (k a) r lg rq f -> emits (mbind (lift (Ok a)) k) r lg rq f.
Proof. intros H w. unfold mbind, lift. apply H. Qed.

Lemma emits_lift_raise {A B : Type} (e : exn) (k : A -> M B) :
  emits (mbind (lift (Raise e)) k) (Raise e) [] [] (fun t => t).
Proof. apply emits_bind_raise, emits_lift. Qed.

(** *** The parser and the store, from every world *)

Lemma parse_points_emits (sym : string) (metadata : value)
      (entries : list (string * value)) :
  forall acc,
  exists r lg, emits (parse_points sym metadata entries acc) r lg [] (fun t => t).
Proof.
  induction entries as [| [ts v] rest IH]; intros acc; simpl.
  - eexists _, _. apply emits_ret.
  - destruct (data_point sym metadata ts v) as [point | e]; [apply IH |].
    destruct (IH acc) as (r & lg & H).
    destruct e;
      try (eexists _, _; apply emits_raise);
      (eexists _, _;
       eapply emits_eq;
       [eapply emits_bind; [apply emits_logger | exact H]
       | reflexivity | reflexivity | reflexivity]).
Qed.

Lemma parse_emits (sym : string) (raw : value) :
  exists l lg, emits (parse_stock_data sym raw) (Ok l) lg [] (fun t => t).
Proof.
  assert (Hb : exists r lg, emits (parse_body sym raw) r lg [] (fun t => t)).
  { unfold parse_body.
    destruct (get raw "Time Series (60min)" (VDict [])) as [series | e];
      [| eexists _, _; apply emits_lift_raise].
    destruct (get raw "Meta Data" (VDict [])) as [metadata | e];
      [| eexists _, _; apply emits_lift_ok; apply emits_lift_raise].
    destruct (items series) as [entries | e] eqn:E3.
    - destruct (parse_points_emits sym metadata entries []) as (r & lg & H).
      exists r, lg. do 2 apply emits_lift_ok. rewrite E3.
      now apply emits_lift_ok.
    - eexists _, _. do 2 apply emits_lift_ok. rewrite E3.
      apply emits_lift_raise. }
  destruct Hb as ([l | e] & lg & H); unfold parse_stock_data.
  - exists l, lg. now apply emits_try_ok.
  - eexists _, _.
    eapply emits_eq;
      [eapply emits_try_handled;
       [exact H | reflexivity
        | eapply emits_bind; [apply emits_logger | apply emits_ret]]
      | reflexivity | reflexivity | reflexivity].
Qed.

Lemma store_emits (pg : pg_session) (data : list observation) :
  data <> [] ->
  exists lg,
    emits (store_data pg data) (Ok (committed pg data)) lg []
          (if committed pg data then written (now pg) data else fun t => t).
Proof.
  intros Hne.
  exists (if committed pg data
          then [(INFO, StoredRecords (length data))]
          else [(ERROR, StoreFailed DatabaseError)]).
  intros w. rewrite (store_data_spec pg data w Hne).
  destruct (committed pg data); now rewrite app_nil_r.
Qed.

(** *** One entry of the list *)

Ltac step H := eapply emits_bind; [exact H | cbv beta].
Ltac log_step := eapply emits_bind; [apply emits_logger | cbv beta].
Ltac finish := first [apply emits_ret | log_step; apply emits_ret].
Ltac normal t := eapply emits_eq; [ t | reflexivity | reflexivity | reflexivity ].

(** What one iteration does: it requests its own symbol, unless the entry
    is blank, and, when its fetch returns, adds its own contribution to the
    counters. *)
Lemma process_symbol_emits (env : environment) (i : nat) (entry : string)
      (c : counters) :
  exists r lg f,
    emits (process_symbol env i entry c) r lg
          (if blank entry then [] else [normalize entry]) f
    /\ (blank entry || fetch_safe (http env i (normalize entry)) = true ->
        r = Ok (add_contribution c (contribution env i entry))).
Proof.
  unfold process_symbol, contribution. fold (normalize entry). fold (blank entry).
  destruct (blank entry) eqn:Eb.
  { eexists _, _, _. split; [apply emits_ret | reflexivity]. }
  set (sym := normalize entry).
  destruct (fetch_emits (http env i sym) sym) as ([raw | e] & lg1 & Hf).
  2:{ eexists _, _, _. split.
      - normal ltac:(log_step; eapply emits_bind_raise; exact Hf).
      - simpl. intros Hs.
        destruct (fetch_safe_returns _ sym Hs) as (v & lg & Hv).
        pose proof (emits_result _ _ _ _ _ _ _ _ _ Hf Hv). discriminate. }
  rewrite (emits_eval _ _ _ _ _ Hf).
  destruct (truthy raw) eqn:Et.
  2:{ eexists _, _, _. split; [| reflexivity].
      normal ltac:(log_step; step Hf; rewrite Et; cbn [negb]; finish). }
  destruct (parse_emits sym raw) as (l & lg2 & Hp).
  rewrite (emits_eval _ _ _ _ _ Hp).
  destruct l as [| p ps].
  { eexists _, _, _. split; [| reflexivity].
    normal ltac:(log_step; step Hf; rewrite Et; cbn [negb]; step Hp; finish). }
  assert (Hne : p :: ps <> []) by discriminate.
  destruct (store_emits (pg env i) (p :: ps) Hne) as (lg3 & Hs).
  rewrite (emits_eval _ _ _ _ _ Hs).
  destruct (committed (pg env i) (p :: ps)).
  - eexists _, _, _. split; [| reflexivity].
    normal ltac:(log_step; step Hf; rewrite Et; cbn [negb]; step Hp; step Hs;
                 finish).
  - eexists _, _, _. split; [| reflexivity].
    normal ltac:(log_step; step Hf; rewrite Et; cbn [negb]; step Hp; step Hs;
                 finish).
Qed.

(** *** The loop and the run *)

Lemma process_symbols_emits (env : environment) (symbols : list string) :
  forall i c,
  exists r lg rq f,
    emits (process_symbols env i symbols c) r lg rq f
    /\ (forall c', r = Ok c' -> rq = fetched symbols)
    /\ (all_fetch_safe env i symbols = true ->
        r = Ok (fold_left add_contribution (contributions env i symbols) c)).
Proof.
  induction symbols as [| entry rest IH]; intros i c; simpl.
  - eexists _, _, _, _. split; [apply emits_ret | split; reflexivity].
  - destruct (process_symbol_emits env i entry c) as ([c1 | e] & lg1 & f1 & H1 & S1).
    + destruct (IH (S i) c1) as (r & lg2 & rq2 & f2 & H2 & R2 & S2).
      eexists r, _, _, _. split; [eapply emits_bind; eassumption |]. split.
      * intros c' E. rewrite (R2 c' E). unfold fetched. simpl.
        now destruct (blank entry).
      * rewrite andb_true_iff. intros (Hs & Hrest).
        specialize (S1 Hs). injection S1 as ->. now apply S2.
    + eexists _, _, _, _. split; [eapply emits_bind_raise; exact H1 |]. split.
      * discriminate.
      * rewrite andb_true_iff. intros (Hs & _). specialize (S1 Hs). discriminate.
Qed.

(** A run whose fetches all return: it completes, requests the non-blank
    entries in order, and its last record is the summary; the counters of
    the summary add up the contributions of the entries, each of which
    comes from the entry's own fetch, parse and store. *)
Lemma run_adds_contributions (env : environment) (api_key : string)
      (symbols : list string) :
  key_missing api_key = false ->
  all_fetch_safe env 0 symbols = true ->
  exists lg f,
    let c := fold_left add_contribution (contributions env 0 symbols)
                       (mkCounters 0 0) in
    emits (fetch_and_process_stock_data env api_key symbols) (Ok tt)
          (lg ++ [(INFO, PipelineCompleted (successful_symbols c)
                                           (length symbols) (total_records c))])
          (fetched symbols) f.
Proof.
  intros Hk Hs. unfold fetch_and_process_stock_data. rewrite Hk.
  destruct (process_symbols_emits env symbols 0 (mkCounters 0 0))
    as (r & lg & rq & f & H & R & S).
  specialize (S Hs). subst r. specialize (R _ eq_refl). subst rq.
  exists lg, f. simpl.
  eapply emits_eq;
    [eapply emits_bind; [exact H | apply emits_logger]
    | reflexivity | apply app_nil_r | reflexivity].
Qed.

(** C10. A run with a configured key that completes ends its log with the
    summary, and the total of the summary is the length of the list of
    symbols as given, although the requests made are those of the entries
    that are not blank once trimmed. *)
Theorem summary_counts_every_entry
        (env : environment) (api_key : string) (symbols : list string)
        (w w' : world)
        (Hkey : key_missing api_key = false)
        (Hrun : fetch_and_process_stock_data env api_key symbols w = (Ok tt, w')) :
  exists lg successful records,
    log w' = (log w ++ lg ++ [(INFO, PipelineCompleted successful
                                       (length symbols) records)])%list
    /\ requests w' = (requests w ++ fetched symbols)%list
    /\ (length (fetched symbols) <= length symbols)%nat.
Proof.
  unfold fetch_and_process_stock_data in Hrun. rewrite Hkey in Hrun.
  destruct (process_symbols_emits env symbols 0 (mkCounters 0 0))
    as (r & lg & rq & f & H & R & _).
  unfold mbind in Hrun. rewrite H in Hrun.
  destruct r as [c | e]; [| discriminate].
  rewrite (R c eq_refl) in Hrun.
  unfold logger in Hrun. simpl in Hrun. injection Hrun as <-.
  exists lg, (successful_symbols c), (total_records c). simpl.
  split; [now rewrite app_assoc | split; [reflexivity |]].
  unfold fetched. rewrite length_map. apply filter_length_le.
Qed.

(** C8 (as amended). With an empty or placeholder key the run returns at
    once: its only record is the error about the key, it makes no request
    and leaves the table alone; no symbol is processed and no summary is
    logged. *)
Theorem missing_key_stops_the_run
        (env : environment) (api_key : string) (symbols : list string) (w : world)
        (Hkey : api_key = "" \/ api_key = placeholder) :
  exists w',
    fetch_and_process_stock_data env api_key symbols w = (Ok tt, w')
    /\ log w' = (log w ++ [(ERROR, KeyNotConfigured)])%list
    /\ requests w' = requests w
    /\ table w' = table w
    /\ summaries (log w') = summaries (log w).
Proof.
  assert (Hm : key_missing api_key = true).
  { unfold key_missing. destruct Hkey as [-> | ->]; reflexivity. }
  unfold fetch_and_process_stock_data. rewrite Hm.
  eexists. split; [reflexivity |]. simpl. repeat split.
  unfold summaries. rewrite flat_map_app. simpl. now rewrite app_nil_r.
Qed.

(** C9. A decoded body that is a dict with a ["Note"] key makes the fetch
    return [None], whatever else the dict holds; the iteration of that
    symbol then stops after the fetch: it leaves the counters and the
    table as they were, and the symbol contributes nothing. *)
Theorem note_discards_the_response
        (env : environment) (i : nat) (entry : string)
        (d : list (string * value)) (c : counters) (w : world)
        (Hnote : has_key "Note" d = true)
        (Hentry : blank entry = false)
        (Hanswer : http env i (normalize entry) = Json (VDict d)) :
  (exists w', fetch_stock_data (Json (VDict d)) (normalize entry) w = (Ok VNone, w'))
  /\ (exists w', process_symbol env i entry c w = (Ok c, w')
                 /\ table w' = table w)
  /\ contribution env i entry = None.
Proof.
  destruct (fetch_note d (normalize entry) Hnote) as (lg & Hf).
  split; [eexists; apply Hf |]. split.
  - unfold process_symbol. fold (normalize entry). fold (blank entry).
    rewrite Hentry, Hanswer.
    unfold mbind at 1. unfold logger at 1. unfold mbind at 1.
    rewrite Hf. simpl. eexists. split; reflexivity.
  - unfold contribution. rewrite Hentry, Hanswer.
    now rewrite (emits_eval _ _ _ _ _ Hf).
Qed.

(* ===================================================================== *)
(** * The properties on the samples                                       *)
(* ===================================================================== *)

(** C1, counterexample. The entry has no ["1. open"] field, and yet the
    parser builds its observation, with an opening price of zero. *)
Lemma missing_open_is_read_as_zero :
  lookup "1. open" fields_without_open = None
  /\ parse_stock_data "AAPL" (VDict body_without_open) empty_world
     = (Ok [point_without_open], empty_world)
  /\ open_price point_without_open = zero.
Proof. repeat split. Qed.



(** C5, counterexample. The response has no metadata section, and the
    parser returns the observation of its time series. *)
Lemma missing_metadata_keeps_the_observations :
  lookup "Meta Data" body_without_metadata = None
  /\ parse_stock_data "AAPL" (VDict body_without_metadata) empty_world
     = (Ok [point_without_metadata], empty_world).
Proof. split; reflexivity. Qed.

Lemma parse_absent_sections_witness :
  parse_stock_data "AAPL" (VDict [("Meta Data", VDict meta_data)]) empty_world
  = (Ok [], empty_world)
  /\ exists l w',
       parse_stock_data "AAPL" (VDict body_without_metadata) empty_world = (Ok l, w')
       /\ parse_stock_data "AAPL"
            (VDict (("Meta Data", VDict []) :: body_without_metadata)) empty_world
          = (Ok l, w')
       /\ Forall (fun o => last_refreshed o = VNone /\ time_zone o = VNone) l.
Proof.
  split.
  - apply (proj1 (parse_absent_sections "AAPL" [("Meta Data", VDict meta_data)]
                    empty_world)).
    reflexivity.
  - apply (proj2 (parse_absent_sections "AAPL" body_without_metadata empty_world)).
    reflexivity.
Defined.

Lemma upsert_keeps_one_row_per_key_witness :
  exists r1 r2,
    rows_of first_write (table after_first) = [r1]
    /\ rows_of second_write (table after_second) = [r2]
    /\ holds r2 second_write
    /\ created_at r2 = created_at r1
    /\ (rows_of first_write (table empty_world) = [] -> created_at r1 = 10)
    /\ keys_unique (table after_first)
    /\ keys_unique (table after_second).
Proof.
  apply (upsert_keeps_one_row_per_key
           (session_ok 10) (session_ok 20) [first_write] [second_write] [] []
           first_write second_write empty_world after_first after_second).
  - constructor.
  - reflexivity.
  - reflexivity.
  - left. reflexivity.
  - reflexivity.
  - constructor.
  - reflexivity.
Defined.

(** The table after the two writes: one row, with the values of the
    second write, the time zone and the creation mark of the first. *)
Example table_after_two_writes :
  table after_second
  = [mkRow (mkStored "AAPL" four_pm (Dec 10000) (Dec 20000) (Dec 5000) (Dec 15000)
                     250 (Reading (VStr "2024-01-05 17:00:00"))
                     (Reading eastern)) 10].
Proof. vm_compute. reflexivity. Qed.

(** Prices of more than four decimals are stored rounded to four: 1.2346
    twice, 0.0001 and 0.1000. *)
Example prices_are_stored_rounded :
  snd (store_data (session_ok 10) [fine_prices] empty_world)
  = mkWorld [mkRow (mkStored "IBM" four_pm (Dec 12346) (Dec 12346) (Dec 1) (Dec 1000)
                             100 (Reading refreshed) (Reading eastern)) 10]
            [(INFO, StoredRecords 1)] [].
Proof. vm_compute. reflexivity. Qed.

Lemma store_commits_all_or_nothing_witness :
  (committed (session_rejects_second 5) [first_write; second_write] = true
   /\ exists w',
        store_data (session_rejects_second 5) [first_write; second_write] empty_world
        = (Ok true, w')
        /\ table w' = written 5 [first_write; second_write] []
        /\ (forall o, In o [first_write; second_write] ->
                      existsb (same_key o) (table w') = true)
        /\ (keys_unique [] ->
            forall pre o post,
              [first_write; second_write] = (pre ++ o :: post)%list ->
              Forall (fun o' => key_of o' <> key_of o) post ->
              exists r, rows_of o (table w') = [r] /\ holds r o))
  \/ (committed (session_rejects_second 5) [first_write; second_write] = false
      /\ exists w',
           store_data (session_rejects_second 5) [first_write; second_write]
                      empty_world
           = (Ok false, w')
           /\ table w' = []).
Proof.
  apply (store_commits_all_or_nothing (session_rejects_second 5)
           [first_write; second_write] empty_world).
  discriminate.
Defined.

(** The rejected second statement takes the first one with it. *)
Example rejected_statement_discards_the_batch :
  store_data (session_rejects_second 5) [first_write; second_write] empty_world
  = (Ok false, mkWorld [] [(ERROR, StoreFailed DatabaseError)] []).
Proof. reflexivity. Qed.

(** C8, counterexample. With an empty key the run logs the error about
    the key and nothing else: no record of the log reports a number of
    symbols, zero or other. *)
Lemma missing_key_logs_no_summary :
  fetch_and_process_stock_data sample_env "" ["AAPL"; "MSFT"] empty_world
  = (Ok tt, mkWorld [] [(ERROR, KeyNotConfigured)] [])
  /\ summaries (log (snd (fetch_and_process_stock_data sample_env ""
                            ["AAPL"; "MSFT"] empty_world)))
     = [].
Proof. split; reflexivity. Qed.

Lemma missing_key_stops_the_run_witness :
  exists w',
    fetch_and_process_stock_data sample_env placeholder ["AAPL"; "MSFT"] empty_world
    = (Ok tt, w')
    /\ log w' = [(ERROR, KeyNotConfigured)]
    /\ requests w' = []
    /\ table w' = []
    /\ summaries (log w') = [].
Proof.
  apply (missing_key_stops_the_run sample_env placeholder ["AAPL"; "MSFT"]
           empty_world).
  right. reflexivity.
Defined.

(** The body with the note holds two well-formed entries: the parser
    would have returned both. *)
Example note_comes_with_valid_data :
  exists p q w',
    parse_stock_data "MSFT" (VDict body_note_and_bars) empty_world
    = (Ok [p; q], w').
Proof. eexists _, _, _. reflexivity. Qed.

Lemma note_discards_the_response_witness :
  (exists w', fetch_stock_data (Json (VDict body_note_and_bars)) "MSFT" empty_world
              = (Ok VNone, w'))
  /\ (exists w', process_symbol sample_env 1 " msft" (mkCounters 1 2) empty_world
                 = (Ok (mkCounters 1 2), w')
                 /\ table w' = [])
  /\ contribution sample_env 1 " msft" = None.
Proof.
  apply (note_discards_the_response sample_env 1 " msft" body_note_and_bars
           (mkCounters 1 2) empty_world); reflexivity.
Defined.

Lemma summary_counts_every_entry_witness :
  exists lg successful records,
    log after_run = ([] ++ lg ++ [(INFO, PipelineCompleted successful 3 records)])%list
    /\ requests after_run = ([] ++ ["AAPL"; "MSFT"])%list
    /\ (2 <= 3)%nat.
Proof.
  apply (summary_counts_every_entry sample_env "demo" ["aapl "; " "; "MSFT"]
           empty_world after_run); reflexivity.
Defined.

(** The scenario of the specification: AAPL answers with two bars, MSFT
    with the note. *)
Example scenario_summary :
  summaries (log (snd (fetch_and_process_stock_data sample_env "demo"
                         ["aapl "; "MSFT"] empty_world)))
  = [(1, 2, 2)%nat].
Proof. reflexivity. Qed.

(** C6. The provider answers with the JSON text [null]: the test
    ['Error Message' in data] raises [TypeError], which no clause of the
    [try] names, so the fetch raises instead of returning [None]. *)
Theorem fetch_raises_on_null_body :
  fetch_stock_data (Json VNone) "IBM" empty_world
  = (Raise TypeError, mkWorld [] [] ["IBM"]).
Proof. reflexivity. Qed.

(** C4. The first symbol is answered with the JSON text [null] and the
    second with two well-formed bars. The [TypeError] of the first fetch
    leaves the loop: the second symbol is never requested, nothing is
    stored and no summary is logged, although the second symbol on its own
    contributes two records. *)
Theorem null_body_aborts_the_run :
  fetch_and_process_stock_data sample_env "demo" ["IBM"; "AAPL"] empty_world
  = (Raise TypeError, mkWorld [] [(INFO, ProcessingSymbol "IBM")] ["IBM"])
  /\ contribution sample_env 1 "AAPL" = Some 2%nat
  /\ summaries (log (snd (fetch_and_process_stock_data sample_env "demo"
                            ["AAPL"] empty_world)))
     = [(1, 1, 2)%nat].
Proof. repeat split. Qed.

(* ===================================================================== *)
(** * Further properties                                                  *)
(* ===================================================================== *)

Import Dag.

(** ** The fetch *)

(** The outcome of the fetch, read off the answer. *)
Lemma fetch_cases (answer : http_outcome) (sym : string) (w : world) :
  match fst (fetch_stock_data answer sym w) with
  | Ok v =>
      v = VNone
      \/ (answer = Json v
          /\ contains "Error Message" v = Ok false
          /\ contains "Note" v = Ok false)
  | Raise e => raised_by answer e
  end.
Proof.
  unfold fetch_stock_data, try_except, mbind, request, lift, logger, ret.
  destruct answer as [| | [] | e | data]; cbn [fst]; auto.
  { destruct e; cbn [fst]; auto; right; repeat split; discriminate. }
  assert (Hraise : forall x : value,
             (forall d, x <> VDict d) -> raised_by (Json x) TypeError).
  { intros x Hx. left. split; [reflexivity | eauto]. }
  destruct data as [| b | n | f | s | l | d]; unfold contains, subscript;
    try (cbn [fst]; apply Hraise; discriminate).
  - destruct (infix_of (list_ascii_of_string "Error Message")
                       (list_ascii_of_string s)) eqn:E1;
      [cbn [fst]; apply Hraise; discriminate |].
    destruct (infix_of (list_ascii_of_string "Note") (list_ascii_of_string s))
      eqn:E2; [cbn [fst]; apply Hraise; discriminate |].
    cbn [fst]. right. rewrite E1, E2. auto.
  - match goal with
    | |- context [if ?b then _ else _] => destruct b eqn:E1
    end; [cbn [fst]; apply Hraise; discriminate |].
    match goal with
    | |- context [if ?b then _ else _] => destruct b eqn:E2
    end; [cbn [fst]; apply Hraise; discriminate |].
    cbn [fst]. right. rewrite E1, E2. auto.
  - unfold has_key.
    destruct (lookup "Error Message" d) as [v |] eqn:E1; [cbn [fst]; auto |].
    destruct (lookup "Note" d) as [v |] eqn:E2; [cbn [fst]; auto |].
    cbn [fst]. right. rewrite E1, E2. auto.
Qed.

(** On the bodies outside [fetch_safe] the fetch raises. *)
Lemma fetch_unsafe_raises (answer : http_outcome) (sym : string) (w : world) :
  fetch_safe answer = false ->
  fst (fetch_stock_data answer sym w) = Raise (fault answer).
Proof.
  intros Hs.
  unfold fetch_stock_data, try_except, mbind, request, lift, logger, ret.
  destruct answer as [| | b | e | data]; try discriminate.
  { destruct e; try discriminate; reflexivity. }
  unfold fault.
  destruct data as [| b | n | f | s | l | d]; try discriminate; try reflexivity;
    unfold contains, subscript; unfold fetch_safe in Hs;
    apply negb_false_iff in Hs.
  - destruct (infix_of (list_ascii_of_string "Error Message")
                       (list_ascii_of_string s)) eqn:E1; [reflexivity |].
    cbn [orb] in Hs. now rewrite Hs.
  - assert (H : existsb (fun v => match v with
                                  | VStr s => String.eqb s "Error Message"
                                  | _ => false
                                  end) l
                || existsb (fun v => match v with
                                     | VStr s => String.eqb s "Note"
                                     | _ => false
                                     end) l = true).
    { induction l as [| x l IH]; simpl in *; [discriminate |].
      apply orb_true_iff in Hs as [Hx | Hl].
      - destruct x; try discriminate.
        apply orb_true_iff in Hx as [-> | ->]; simpl; auto using orb_true_r.
      - specialize (IH Hl). apply orb_true_iff in IH as [-> | ->];
          rewrite ?orb_true_r; auto. }
    apply orb_true_iff in H as [H | H].
    + now rewrite H.
    + rewrite H.
      match goal with
      | |- context [if ?b then _ else _] => destruct b
      end; reflexivity.
Qed.

(** X2. The fetch returns [None] or the decoded body itself, unchanged,
    and the body only when neither key is in it. An exception leaves it
    in two cases only: a [TypeError], on a decoded body that is not a
    dict; and an exception that the library raises and that is neither a
    [RequestException] nor a [ValueError], which the fetch does not catch. *)
Theorem fetch_returns_none_or_clean_body
        (answer : http_outcome) (sym : string) (w : world) :
  (forall v, fst (fetch_stock_data answer sym w) = Ok v ->
             v = VNone
             \/ (answer = Json v
                 /\ contains "Error Message" v = Ok false
                 /\ contains "Note" v = Ok false))
  /\ (forall e, fst (fetch_stock_data answer sym w) = Raise e ->
                raised_by answer e)
  /\ (forall e, answer = OtherRaises e ->
                e <> RequestException -> e <> ValueError ->
                fst (fetch_stock_data answer sym w) = Raise e).
Proof.
  pose proof (fetch_cases answer sym w) as H.
  split; [| split].
  - intros x E. rewrite E in H. exact H.
  - intros x E. rewrite E in H. exact H.
  - intros e -> H1 H2.
    assert (Hs : fetch_safe (OtherRaises e) = false)
      by (destruct e; try reflexivity; contradiction).
    exact (fetch_unsafe_raises (OtherRaises e) sym w Hs).
Qed.

(** X3. The error message comes first: a dict with an ["Error Message"]
    key is logged as an error with the value of that key, whether or not a
    note is there too; a note is logged, as a warning, only in a dict
    without an error message. Either way one record is written. *)
Theorem fetch_logs_error_before_note
        (d : list (string * value)) (sym : string) (w : world) (v : value) :
  (lookup "Error Message" d = Some v ->
   fetch_stock_data (Json (VDict d)) sym w
   = (Ok VNone, mkWorld (table w) (log w ++ [(ERROR, ApiError sym v)])
                        (requests w ++ [sym])))
  /\ (lookup "Error Message" d = None ->
      lookup "Note" d = Some v ->
      fetch_stock_data (Json (VDict d)) sym w
      = (Ok VNone, mkWorld (table w) (log w ++ [(WARNING, RateLimitNote sym v)])
                           (requests w ++ [sym]))).
Proof.
  unfold fetch_stock_data, try_except, mbind, request, lift, logger, ret,
    contains, subscript, has_key.
  split.
  - intros ->. reflexivity.
  - intros -> ->. reflexivity.
Qed.

(** ** The parser *)

Lemma parse_points_accounts (sym : string) (metadata : value)
      (entries : list (string * value)) :
  forall acc w l w',
    parse_points sym metadata entries acc w = (Ok l, w') ->
    exists l' lg,
      l = (acc ++ l')%list
      /\ w' = mkWorld (table w) (log w ++ lg) (requests w)
      /\ (length l' + length lg = length entries)%nat
      /\ Forall (skip_warning sym (map fst entries)) lg.
Proof.
  induction entries as [| [ts v] rest IH]; intros acc w l w' H; simpl in H.
  - injection H as <- <-. exists [], []. rewrite !app_nil_r.
    destruct w. repeat split; constructor.
  - assert (Hmono : forall lg,
               Forall (skip_warning sym (map fst rest)) lg ->
               Forall (skip_warning sym (map fst ((ts, v) :: rest))) lg).
    { intros lg. apply Forall_impl. intros r (ts' & e & -> & Hin).
      exists ts', e. split; [reflexivity | now right]. }
    destruct (data_point sym metadata ts v) as [point | e].
    + apply IH in H as (l' & lg & -> & -> & Hlen & Hlg).
      exists (point :: l'), lg. rewrite <- app_assoc.
      repeat split; [simpl; lia | now apply Hmono].
    + destruct e; try discriminate;
        (apply IH in H as (l' & lg & -> & -> & Hlen & Hlg);
         eexists l', (_ :: lg); simpl;
         rewrite <- app_assoc;
         repeat split;
         [simpl; lia
         | constructor;
           [eexists _, _; split; [reflexivity | now left] | now apply Hmono]]).
Qed.

(** X4. Every entry is answered for: when no fault leaves the loop, the
    observations returned and the warnings logged add up to the entries of
    the time series; the parser logs nothing but one warning for each
    entry that it skips, and touches neither the table nor the requests. *)
Theorem parse_returns_or_warns
        (sym : string) (raw : value) (w w' : world) (l : list observation)
        (Hbody : parse_body sym raw w = (Ok l, w')) :
  exists d entries lg,
    raw = VDict d
    /\ section "Time Series (60min)" d = VDict entries
    /\ parse_stock_data sym raw w = (Ok l, w')
    /\ w' = mkWorld (table w) (log w ++ lg) (requests w)
    /\ (length l + length lg = length entries)%nat
    /\ Forall (skip_warning sym (map fst entries)) lg.
Proof.
  assert (Hp : parse_stock_data sym raw w = (Ok l, w')).
  { unfold parse_stock_data, try_except. now rewrite Hbody. }
  unfold parse_body, mbind, lift in Hbody.
  destruct raw as [| | | | | | d]; try discriminate.
  cbn [get] in Hbody. fold (section "Time Series (60min)" d) in Hbody.
  destruct (section "Time Series (60min)" d) as [| | | | | | entries] eqn:Es;
    try discriminate.
  cbn [items] in Hbody.
  apply parse_points_accounts in Hbody as (l' & lg & -> & -> & Hlen & Hlg).
  exists d, entries, lg. repeat split; assumption.
Qed.

(** A fault at one entry leaves the loop, whatever the other entries
    are. *)
Lemma parse_points_fault (sym : string) (metadata : value)
      (entries : list (string * value)) (e : string * value) (x : exn) :
  In e entries ->
  data_point sym metadata (fst e) (snd e) = Raise x ->
  escapes x = true ->
  forall acc w,
  exists x' lg,
    parse_points sym metadata entries acc w
    = (Raise x', mkWorld (table w) (log w ++ lg) (requests w)).
Proof.
  intros Hin He Hx.
  induction entries as [| [ts v] rest IH]; [contradiction |].
  intros acc w. simpl.
  destruct (data_point sym metadata ts v) as [point | y] eqn:E.
  - destruct Hin as [<- | Hin]; [simpl in He; congruence |].
    apply (IH Hin).
  - assert (Hskip : escapes y = false ->
              exists x' lg,
                parse_points sym metadata rest acc
                  (mkWorld (table w) (log w ++ [(WARNING, DataPointFailed sym ts y)])
                           (requests w))
                = (Raise x', mkWorld (table w) (log w ++ lg) (requests w))).
    { intros Hy.
      destruct Hin as [<- | Hin]; [simpl in He; congruence |].
      destruct (IH Hin acc
                  (mkWorld (table w) (log w ++ [(WARNING, DataPointFailed sym ts y)])
                           (requests w))) as (x' & lg & H).
      exists x', ((WARNING, DataPointFailed sym ts y) :: lg).
      rewrite H. simpl. now rewrite <- app_assoc. }
    destruct y;
      first
        [ unfold mbind, logger; cbv beta iota; apply Hskip; reflexivity
        | eexists _, []; unfold raise; rewrite app_nil_r; destruct w;
          reflexivity ].
Qed.

(** X5. One entry that is not a field set discards the whole response:
    when an entry with a timestamp in the wire format holds a value that
    is not a dict, the parser returns the empty list, whatever the other
    entries are, and its last record is the error of the outer handler. *)
Theorem parse_discards_all_on_bad_entry
        (sym : string) (d entries : list (string * value))
        (ts : string) (v : value) (t : datetime) (w : world)
        (Hseries : section "Time Series (60min)" d = VDict entries)
        (Hin : In (ts, v) entries)
        (Hstamp : strptime ts = Ok t)
        (Hvalue : forall fields, v <> VDict fields) :
  exists x lg,
    parse_stock_data sym (VDict d) w
    = (Ok [], mkWorld (table w)
                      (log w ++ lg ++ [(ERROR, ParseFailed sym x)])
                      (requests w)).
Proof.
  assert (He : data_point sym (section "Meta Data" d) ts v = Raise AttributeError).
  { unfold data_point. rewrite Hstamp. simpl.
    destruct v; try reflexivity. now contradiction (Hvalue d0). }
  destruct (parse_points_fault sym _ entries (ts, v) AttributeError Hin He
              eq_refl [] w) as (x & lg & H).
  exists x, lg.
  unfold parse_stock_data, try_except, parse_body, mbind, lift. cbn [get].
  fold (section "Time Series (60min)" d). fold (section "Meta Data" d).
  rewrite Hseries. cbn [items]. rewrite H.
  unfold logger, ret. simpl. now rewrite <- app_assoc.
Qed.

(** X6. The observations of one call carry the symbol of the call and
    share one refresh time and one time zone. *)
Theorem parse_copies_symbol_and_metadata
        (sym : string) (raw : value) (w : world) :
  exists l w' lr tz,
    parse_stock_data sym raw w = (Ok l, w')
    /\ Forall (fun o => symbol o = sym
                        /\ last_refreshed o = lr
                        /\ time_zone o = tz) l.
Proof.
  destruct (parse_stock_data_kept sym raw w) as (l & w' & E & Hl).
  destruct Hl as [-> | (d & entries & meta & kept & _ & _ & _ & _ & HF)].
  - exists [], w', VNone, VNone. split; [exact E | constructor].
  - exists l, w', (meta_from meta "3. Last Refreshed"),
      (meta_from meta "5. Time Zone").
    split; [exact E |].
    clear E. induction HF as [| e o kept l Hb _ IH]; constructor; [| exact IH].
    destruct Hb as (? & _ & _ & _ & _ & _ & _ & _ & Hs & Hr & Hz). auto.
Qed.

(** ** The store *)

Lemma same_key_on_conflict (o o' : observation) (r : row) :
  same_key o' (on_conflict o r) = same_key o' r.
Proof. reflexivity. Qed.

Lemma same_marks_refl (r : row) : same_marks r r.
Proof. unfold same_marks. auto. Qed.

Lemma same_marks_trans (a b c : row) :
  same_marks a b -> same_marks b c -> same_marks a c.
Proof.
  unfold same_marks. intros (-> & -> & ->) (-> & -> & ->). auto.
Qed.

Lemma on_conflict_marks (o : observation) (r : row) :
  same_marks (on_conflict o r) r.
Proof. unfold same_marks. auto. Qed.

(** The row of a key keeps its marks through a statement. *)
Lemma upsert_keeps_marks (now : Z) (o o' : observation) (rows : list row)
      (r0 : row) :
  rows_of o' rows = [r0] ->
  exists r, rows_of o' (upsert now o rows) = [r] /\ same_marks r r0.
Proof.
  revert r0. unfold rows_of.
  induction rows as [| r rows IH]; intros r0; simpl; [discriminate |].
  destruct (same_key o r) eqn:E; simpl.
  - rewrite same_key_on_conflict.
    destruct (same_key o' r); intros H.
    + injection H as <- H. rewrite H. eauto using on_conflict_marks.
    + rewrite H. eauto using same_marks_refl.
  - destruct (same_key o' r) eqn:E'; intros H.
    + injection H as <- H.
      assert (Hk : key_of o' <> key_of o).
      { intros Hk. rewrite (same_key_key _ _ r Hk) in E'. congruence. }
      pose proof (rows_of_upsert_other now o o' rows Hk) as Ho.
      unfold rows_of in Ho. rewrite Ho, H. eauto using same_marks_refl.
    + now apply IH.
Qed.

Lemma written_keeps_marks (now : Z) (o' : observation) (data : list observation) :
  forall rows r0,
    rows_of o' rows = [r0] ->
    exists r, rows_of o' (written now data rows) = [r] /\ same_marks r r0.
Proof.
  unfold written.
  induction data as [| o data IH]; simpl; intros rows r0 H0;
    [eauto using same_marks_refl |].
  destruct (upsert_keeps_marks now o o' rows r0 H0) as (r1 & H1 & M1).
  destruct (IH _ r1 H1) as (r & Hr & M).
  eauto using same_marks_trans.
Qed.

(** A key that has no row gets the row of the statement. *)
Lemma upsert_inserts (now : Z) (o : observation) (rows : list row) :
  rows_of o rows = [] -> rows_of o (upsert now o rows) = [mkRow (columns o) now].
Proof.
  unfold rows_of.
  induction rows as [| r rows IH]; simpl.
  - intros _. assert (E : same_key o (mkRow (columns o) now) = true) by now apply same_key_iff.
    now rewrite E.
  - destruct (same_key o r) eqn:E; [discriminate |].
    simpl. rewrite E. exact IH.
Qed.

Lemma written_keys (now : Z) (data : list observation) :
  forall rows k,
    In k (keys (written now data rows))
    <-> In k (keys rows) \/ In k (map key_of data).
Proof.
  unfold written.
  induction data as [| o data IH]; simpl; intros rows k; [tauto |].
  rewrite IH, upsert_keys.
  destruct (existsb (same_key o) rows) eqn:E.
  - apply existsb_exists in E as (r & Hr & E). apply same_key_iff in E.
    assert (Hin : In (key_of o) (keys rows)).
    { rewrite E. unfold keys.
      exact (in_map row_key rows r Hr). }
    split; [tauto |]. intros [H | [<- | H]]; auto.
  - rewrite in_app_iff. simpl. tauto.
Qed.

Lemma written_length (now : Z) (data : list observation) :
  forall rows,
    (length rows <= length (written now data rows) <= length rows + length data)%nat.
Proof.
  assert (Hup : forall o rows,
             (length rows <= length (upsert now o rows) <= S (length rows))%nat).
  { intros o rows. induction rows as [| r rows IH]; simpl; [lia |].
    destruct (same_key o r); simpl; lia. }
  unfold written.
  induction data as [| o data IH]; simpl; intros rows; [lia |].
  specialize (IH (upsert now o rows)). specialize (Hup o rows). lia.
Qed.

(** X9. A call of [store_data] does not touch the rows of the keys that
    are not in its batch, whether it commits or fails. *)
Theorem store_leaves_other_keys
        (pg : pg_session) (data : list observation) (o' : observation) (w : world)
        (Hother : Forall (fun o => key_of o <> key_of o') data) :
  rows_of o' (table (snd (store_data pg data w))) = rows_of o' (table w).
Proof.
  destruct data as [| o data]; [reflexivity |].
  rewrite store_data_spec by discriminate.
  destruct (committed pg (o :: data)); [| reflexivity].
  cbn [snd table]. now apply written_other_keys.
Qed.

(** X10. A write to a key that has a row changes neither the time zone
    nor the creation mark of the row: the update assigns the prices, the
    volume and the refresh time only, so the row keeps the time zone of
    its first write. *)
Theorem store_keeps_time_zone_and_created_at
        (pg : pg_session) (data : list observation) (o : observation)
        (r0 : row) (w : world)
        (Hrow : rows_of o (table w) = [r0]) :
  exists r,
    rows_of o (table (snd (store_data pg data w))) = [r]
    /\ time_zone_col (cells r) = time_zone_col (cells r0)
    /\ created_at r = created_at r0
    /\ row_key r = row_key r0.
Proof.
  assert (H : exists r, rows_of o (table (snd (store_data pg data w))) = [r]
                        /\ same_marks r r0).
  { destruct data as [| o1 data]; [eauto using same_marks_refl |].
    rewrite store_data_spec by discriminate.
    destruct (committed pg (o1 :: data)); [| eauto using same_marks_refl].
    cbn [snd table]. now apply written_keeps_marks. }
  destruct H as (r & Hr & Hk & Hz & Hc). eauto.
Qed.

(** X11. After a committed batch in which a key occurs once, a key that
    had no row has exactly one row, that of its observation as the columns
    take it: the symbol, the timestamp, the four prices rounded to the
    four decimals of their columns, the volume, the server's readings of
    the refresh time and of the time zone, and the time of the transaction
    as creation mark. *)
Theorem store_inserts_new_key
        (pg : pg_session) (pre post : list observation) (o : observation)
        (w w' : world)
        (Hnew : rows_of o (table w) = [])
        (Hpre : Forall (fun o' => key_of o' <> key_of o) pre)
        (Hpost : Forall (fun o' => key_of o' <> key_of o) post)
        (Hstore : store_data pg (pre ++ o :: post) w = (Ok true, w')) :
  rows_of o (table w') = [mkRow (columns o) (now pg)].
Proof.
  rewrite store_data_spec in Hstore by (destruct pre; discriminate).
  destruct (committed pg (pre ++ o :: post)); [| discriminate].
  injection Hstore as <-. cbn [table].
  unfold written. rewrite fold_left_app. cbn [fold_left].
  fold (written (now pg) pre (table w)).
  fold (written (now pg) post (upsert (now pg) o (written (now pg) pre (table w)))).
  rewrite (written_other_keys _ o post Hpost).
  apply upsert_inserts. now rewrite (written_other_keys _ o pre Hpre).
Qed.

(** X12. A committed batch adds keys and removes none: the keys of the
    table afterwards are those it had and those of the batch; the table
    grows by at most one row for each statement, and the primary key still
    holds. *)
Theorem store_adds_the_keys_of_the_batch
        (pg : pg_session) (data : list observation) (w w' : world)
        (Hstore : store_data pg data w = (Ok true, w')) :
  (forall k, In k (keys (table w'))
             <-> In k (keys (table w)) \/ In k (map key_of data))
  /\ (length (table w) <= length (table w') <= length (table w) + length data)%nat
  /\ (keys_unique (table w) -> keys_unique (table w')).
Proof.
  destruct data as [| o data]; [discriminate |].
  rewrite store_data_spec in Hstore by discriminate.
  destruct (committed pg (o :: data)); [| discriminate].
  injection Hstore as <-. cbn [table].
  split; [exact (written_keys (now pg) (o :: data) (table w)) |].
  split; [exact (written_length (now pg) (o :: data) (table w))
         | exact (written_unique (now pg) (o :: data) (table w))].
Qed.

(** *** Storing a batch again *)

Lemma same_key_marks (o : observation) (a b : row) :
  row_key a = row_key b -> same_key o a = same_key o b.
Proof.
  unfold same_key, key_of. intros H. now injection H as -> ->.
Qed.

Lemma touch_marks (o : observation) (r : row) : same_marks (touch o r) r.
Proof.
  unfold touch. destruct (same_key o r);
    [apply on_conflict_marks | apply same_marks_refl].
Qed.

Lemma touch_keys (o : observation) (rows : list row) :
  keys (map (touch o) rows) = keys rows.
Proof.
  unfold keys. rewrite map_map. apply map_ext.
  intros r. apply (touch_marks o r).
Qed.

(** On a key that has its row, a statement rewrites that row in place. *)
Lemma upsert_touches (now : Z) (o : observation) (rows : list row) :
  keys_unique rows ->
  existsb (same_key o) rows = true ->
  upsert now o rows = map (touch o) rows.
Proof.
  unfold keys_unique.
  induction rows as [| r rows IH]; simpl; intros Hu Hex; [discriminate |].
  inversion Hu as [| k ks Hnot Hnd]; subst.
  unfold touch at 1.
  destruct (same_key o r) eqn:E.
  - f_equal. symmetry. rewrite <- (map_id rows) at 2.
    apply map_ext_in. intros r' Hr'. unfold touch.
    destruct (same_key o r') eqn:E'; [| reflexivity].
    exfalso. apply Hnot.
    apply same_key_iff in E, E'. rewrite <- E, E'.
    exact (in_map row_key rows r' Hr').
  - f_equal. apply IH; assumption.
Qed.

Lemma written_touches (now : Z) (data : list observation) :
  forall rows,
    keys_unique rows ->
    (forall o, In o data -> existsb (same_key o) rows = true) ->
    written now data rows = map (touched data) rows.
Proof.
  unfold written, touched.
  induction data as [| o data IH]; simpl; intros rows Hu Hin.
  - now rewrite map_id.
  - rewrite (upsert_touches now o rows Hu (Hin o (or_introl eq_refl))).
    rewrite IH.
    + now rewrite map_map.
    + unfold keys_unique. now rewrite touch_keys.
    + intros o' Ho'. specialize (Hin o' (or_intror Ho')).
      rewrite existsb_exists in *. destruct Hin as (r & Hr & E).
      exists (touch o r). split; [now apply in_map |].
      rewrite <- E. apply same_key_marks. apply (touch_marks o r).
Qed.

Lemma on_conflict_same_marks (o : observation) (a b : row) :
  same_marks a b -> on_conflict o a = on_conflict o b.
Proof.
  unfold same_marks, on_conflict, key_of. intros (Hk & -> & ->).
  now injection Hk as -> ->.
Qed.

(** The statements of a batch leave a row as it is, or as the last
    statement for its key makes it. *)
Lemma touched_cases (data : list observation) (r : row) :
  same_marks (touched data r) r
  /\ ((Forall (fun o => same_key o r = false) data /\ touched data r = r)
      \/ exists pre o post,
           data = (pre ++ o :: post)%list
           /\ same_key o r = true
           /\ Forall (fun o' => same_key o' r = false) post
           /\ touched data r = on_conflict o r).
Proof.
  unfold touched.
  induction data as [| o data IH] using rev_ind; simpl.
  - split; [apply same_marks_refl | left; split; [constructor | reflexivity]].
  - rewrite fold_left_app. simpl.
    destruct IH as (Hm & IH).
    set (r' := fold_left (fun r o => touch o r) data r) in *.
    assert (Hk : same_key o r' = same_key o r)
      by (apply same_key_marks; apply Hm).
    split; [eapply same_marks_trans; [apply touch_marks | exact Hm] |].
    unfold touch. rewrite Hk.
    destruct (same_key o r) eqn:E.
    + right. exists data, o, [].
      split; [reflexivity |]. split; [exact E |]. split; [constructor |].
      now apply on_conflict_same_marks.
    + destruct IH as [(Hall & Hr) | (pre & o1 & post & -> & E1 & Hpost & Hr)].
      * left. split; [| exact Hr].
        apply Forall_app. split; [exact Hall | now constructor].
      * right. exists pre, o1, (post ++ [o])%list.
        rewrite <- app_assoc. simpl.
        split; [reflexivity |]. split; [exact E1 |]. split; [| exact Hr].
        apply Forall_app. split; [exact Hpost | now constructor].
Qed.

Lemma on_conflict_holds_same (o : observation) (r : row) :
  holds r o -> on_conflict o r = r.
Proof.
  destruct r as [[s t a b c d v lr tz] ca]. unfold holds, on_conflict. simpl.
  intros (-> & -> & -> & -> & -> & ->). reflexivity.
Qed.

Lemma written_twice (now1 now2 : Z) (data : list observation) (rows : list row) :
  keys_unique rows ->
  written now2 data (written now1 data rows) = written now1 data rows.
Proof.
  intros Hu.
  set (t1 := written now1 data rows).
  assert (Hu1 : keys_unique t1) by now apply written_unique.
  rewrite (written_touches now2 data t1 Hu1).
  2:{ intros o Ho. apply written_has_row. now left. }
  rewrite <- (map_id t1) at 2.
  apply map_ext_in. intros r Hr.
  destruct (touched_cases data r)
    as (_ & [(_ & E) | (pre & o & post & Ed & Ek & Hpost & E)]); [exact E |].
  rewrite E. apply on_conflict_holds_same.
  assert (Hpost' : Forall (fun o' => key_of o' <> key_of o) post).
  { revert Hpost. apply Forall_impl. intros o' Ho' Hk.
    rewrite (same_key_key _ _ r Hk) in Ho'. congruence. }
  destruct (written_last_wins now1 o pre post rows Hu Hpost') as (r1 & Hr1 & Hh).
  rewrite <- Ed in Hr1. fold t1 in Hr1.
  assert (Hin : In r (rows_of o t1)).
  { unfold rows_of. apply filter_In. auto. }
  rewrite Hr1 in Hin. destruct Hin as [<- | []]. exact Hh.
Qed.

(** X8. Storing a batch again changes nothing: when a batch has been
    committed to a table that obeys its primary key, a second committed
    call with the same batch leaves every row of the table as it is,
    creation marks included. *)
Theorem store_again_changes_nothing
        (pg1 pg2 : pg_session) (data : list observation) (w w1 w2 : world)
        (Hunique : keys_unique (table w))
        (Hfirst : store_data pg1 data w = (Ok true, w1))
        (Hsecond : store_data pg2 data w1 = (Ok true, w2)) :
  table w2 = table w1.
Proof.
  destruct data as [| o data]; [discriminate |].
  rewrite store_data_spec in Hfirst by discriminate.
  destruct (committed pg1 (o :: data)); [| discriminate].
  injection Hfirst as <-.
  rewrite store_data_spec in Hsecond by discriminate.
  destruct (committed pg2 (o :: data)); [| discriminate].
  injection Hsecond as <-.
  exact (written_twice (now pg1) (now pg2) (o :: data) (table w) Hunique).
Qed.

(** ** The runner *)

Lemma keeps_id : keeps (fun t => t).
Proof.
  intros t. repeat split; auto. intros o r0 H. eauto using same_marks_refl.
Qed.

Lemma keeps_written (now : Z) (data : list observation) :
  keeps (written now data).
Proof.
  intros t. split; [apply written_unique |]. split.
  - intros k Hk. apply written_keys. now left.
  - intros o r0. apply written_keeps_marks.
Qed.

Lemma keeps_compose (f g : list row -> list row) :
  keeps f -> keeps g -> keeps (fun t => g (f t)).
Proof.
  intros Hf Hg t.
  destruct (Hf t) as (F1 & F2 & F3). destruct (Hg (f t)) as (G1 & G2 & G3).
  repeat split; auto.
  intros o r0 H. destruct (F3 o r0 H) as (r1 & H1 & M1).
  destruct (G3 o r1 H1) as (r & Hr & M). eauto using same_marks_trans.
Qed.

Lemma keeps_ext (f g : list row -> list row) :
  keeps f -> (forall t, f t = g t) -> keeps g.
Proof. intros Hf E t. rewrite <- E. apply Hf. Qed.

Lemma fetch_raise_is_unsafe (answer : http_outcome) (sym : string) (e : exn)
      lg rq f :
  emits (fetch_stock_data answer sym) (Raise e) lg rq f ->
  e = fault answer /\ fetch_safe answer = false.
Proof.
  intros H.
  assert (Hs : fetch_safe answer = false).
  { destruct (fetch_safe answer) eqn:Hs; [| reflexivity].
    destruct (fetch_safe_returns answer sym Hs) as (v & lg' & Hv).
    pose proof (emits_result _ _ _ _ _ _ _ _ _ H Hv). discriminate. }
  split; [| exact Hs].
  pose proof (fetch_unsafe_raises answer sym empty_world Hs) as Hr.
  rewrite H in Hr. cbn [fst] in Hr. congruence.
Qed.

Lemma fetch_ok_is_safe (answer : http_outcome) (sym : string) (v : value)
      lg rq f :
  emits (fetch_stock_data answer sym) (Ok v) lg rq f ->
  fetch_safe answer = true.
Proof.
  intros H. destruct (fetch_safe answer) eqn:Hs; [reflexivity |].
  pose proof (fetch_unsafe_raises answer sym empty_world Hs) as Hr.
  rewrite H in Hr. discriminate.
Qed.

(** One iteration, in full: its requests, what it does to the table, and
    its result. *)
Lemma process_symbol_full (env : environment) (i : nat) (entry : string)
      (c : counters) :
  exists r lg f,
    emits (process_symbol env i entry c) r lg
          (if blank entry then [] else [normalize entry]) f
    /\ keeps f
    /\ (contribution env i entry = None -> forall t, f t = t)
    /\ match r with
       | Ok c' =>
           c' = add_contribution c (contribution env i entry)
           /\ blank entry || fetch_safe (http env i (normalize entry)) = true
       | Raise e =>
           e = fault (http env i (normalize entry))
           /\ blank entry || fetch_safe (http env i (normalize entry)) = false
       end.
Proof.
  unfold process_symbol, contribution. fold (normalize entry). fold (blank entry).
  destruct (blank entry) eqn:Eb.
  { eexists _, _, _. split; [apply emits_ret |].
    split; [apply keeps_id | split; [reflexivity | split; reflexivity]]. }
  set (sym := normalize entry).
  destruct (fetch_emits (http env i sym) sym) as ([raw | e] & lg1 & Hf).
  2:{ destruct (fetch_raise_is_unsafe _ _ _ _ _ _ Hf) as (-> & Hs).
      eexists _, _, _. split.
      - normal ltac:(log_step; eapply emits_bind_raise; exact Hf).
      - split; [apply keeps_id | split; [reflexivity | split; [reflexivity | exact Hs]]]. }
  pose proof (fetch_ok_is_safe _ _ _ _ _ _ Hf) as Hsafe.
  rewrite (emits_eval _ _ _ _ _ Hf).
  destruct (truthy raw) eqn:Et.
  2:{ eexists _, _, _. split.
      - normal ltac:(log_step; step Hf; rewrite Et; cbn [negb]; finish).
      - split; [apply keeps_id | split; [reflexivity | split; [reflexivity | exact Hsafe]]]. }
  destruct (parse_emits sym raw) as (l & lg2 & Hp).
  rewrite (emits_eval _ _ _ _ _ Hp).
  destruct l as [| p ps].
  { eexists _, _, _. split.
    - normal ltac:(log_step; step Hf; rewrite Et; cbn [negb]; step Hp; finish).
    - split; [apply keeps_id | split; [reflexivity | split; [reflexivity | exact Hsafe]]]. }
  assert (Hne : p :: ps <> []) by discriminate.
  destruct (store_emits (pg env i) (p :: ps) Hne) as (lg3 & Hs).
  rewrite (emits_eval _ _ _ _ _ Hs).
  destruct (committed (pg env i) (p :: ps)).
  - eexists _, _, _. split.
    + normal ltac:(log_step; step Hf; rewrite Et; cbn [negb]; step Hp; step Hs;
                   finish).
    + split; [apply keeps_written | split; [discriminate | split; [reflexivity | exact Hsafe]]].
  - eexists _, _, _. split.
    + normal ltac:(log_step; step Hf; rewrite Et; cbn [negb]; step Hp; step Hs;
                   finish).
    + split; [apply keeps_id | split; [reflexivity | split; [reflexivity | exact Hsafe]]].
Qed.

(** The loop, in full. *)
Lemma process_symbols_full (env : environment) (symbols : list string) :
  forall i c,
  exists r lg rq f,
    emits (process_symbols env i symbols c) r lg rq f
    /\ keeps f
    /\ match r with
       | Ok c' =>
           c' = fold_left add_contribution (contributions env i symbols) c
           /\ all_fetch_safe env i symbols = true
           /\ rq = fetched symbols
       | Raise e =>
           first_fault env i symbols = Some e
           /\ all_fetch_safe env i symbols = false
       end.
Proof.
  induction symbols as [| entry rest IH]; intros i c; simpl.
  - eexists _, _, _, _. split; [apply emits_ret |].
    split; [apply keeps_id | auto].
  - destruct (process_symbol_full env i entry c)
      as ([c1 | e] & lg1 & f1 & H1 & K1 & _ & R1).
    + destruct R1 as (-> & S1).
      destruct (IH (S i) (add_contribution c (contribution env i entry)))
        as (r & lg2 & rq2 & f2 & H2 & K2 & R2).
      eexists r, _, _, _. split; [eapply emits_bind; eassumption |].
      split; [now apply keeps_compose |].
      rewrite S1. destruct r as [c' | e'].
      * destruct R2 as (-> & -> & ->). repeat split.
        unfold fetched. simpl. now destruct (blank entry).
      * exact R2.
    + destruct R1 as (-> & S1).
      eexists _, _, _, _. split; [eapply emits_bind_raise; exact H1 |].
      split; [exact K1 |]. rewrite S1. auto.
Qed.

Lemma first_fault_none (env : environment) (symbols : list string) :
  forall i, first_fault env i symbols = None <-> all_fetch_safe env i symbols = true.
Proof.
  induction symbols as [| entry rest IH]; intros i; simpl; [tauto |].
  destruct (blank entry || fetch_safe (http env i (normalize entry))); simpl.
  - apply IH.
  - split; discriminate.
Qed.

Lemma add_contributions (l : list (option nat)) :
  forall c,
    fold_left add_contribution l c
    = mkCounters (successful_symbols c + successes l)
                 (total_records c + records l).
Proof.
  unfold successes.
  induction l as [| [n |] l IH]; intros [s t]; simpl.
  - f_equal; lia.
  - rewrite IH. simpl. f_equal; lia.
  - apply IH.
Qed.

Lemma contribution_positive (env : environment) (i : nat) (entry : string)
      (n : nat) :
  contribution env i entry = Some n -> (1 <= n)%nat /\ blank entry = false.
Proof.
  unfold contribution.
  destruct (blank entry); [discriminate |].
  destruct (eval (fetch_stock_data _ _)) as [raw |]; [| discriminate].
  destruct (truthy raw); [| discriminate].
  destruct (eval (parse_stock_data _ raw)) as [[| p ps] |]; try discriminate.
  destruct (eval (store_data _ _)) as [[] |]; try discriminate.
  intros H. injection H as <-. simpl. split; [lia | reflexivity].
Qed.

Lemma contributions_bounds (env : environment) (symbols : list string) :
  forall i,
    (successes (contributions env i symbols) <= length (fetched symbols))%nat
    /\ (successes (contributions env i symbols)
        <= records (contributions env i symbols))%nat.
Proof.
  unfold successes, fetched.
  induction symbols as [| entry rest IH]; intros i; simpl; [lia |].
  destruct (IH (S i)) as (I1 & I2).
  destruct (contribution env i entry) as [n |] eqn:E; simpl.
  - apply contribution_positive in E as (Hn & ->). simpl. lia.
  - destruct (blank entry); simpl; lia.
Qed.

(** X13. The summary of a completed run: its counters are the successes
    and the records of the contributions of the entries; the successes are
    at most the requests made, which are at most the entries, and at most
    the records, since a success stores at least one record. *)
Theorem summary_counters_are_bounded
        (env : environment) (api_key : string) (symbols : list string)
        (w w' : world)
        (Hkey : key_missing api_key = false)
        (Hrun : fetch_and_process_stock_data env api_key symbols w = (Ok tt, w')) :
  let cs := contributions env 0 symbols in
  (exists lg,
     log w' = (log w ++ lg ++ [(INFO, PipelineCompleted (successes cs)
                                        (length symbols) (records cs))])%list)
  /\ (successes cs <= length (fetched symbols) <= length symbols)%nat
  /\ (successes cs <= records cs)%nat.
Proof.
  intros cs.
  unfold fetch_and_process_stock_data in Hrun. rewrite Hkey in Hrun.
  destruct (process_symbols_full env symbols 0 (mkCounters 0 0))
    as (r & lg & rq & f & H & _ & R).
  unfold mbind in Hrun. rewrite H in Hrun.
  destruct r as [c | e]; [| discriminate].
  destruct R as (-> & _ & ->).
  rewrite add_contributions in Hrun. simpl in Hrun.
  unfold logger in Hrun. simpl in Hrun. injection Hrun as <-.
  destruct (contributions_bounds env symbols 0) as (B1 & B2).
  split; [exists lg; simpl; now rewrite app_assoc |].
  split; [| exact B2]. split; [exact B1 |].
  unfold fetched. rewrite length_map. apply filter_length_le.
Qed.

Lemma run_table (env : environment) (api_key : string) (symbols : list string)
      (w : world) :
  exists f,
    keeps f
    /\ table (snd (fetch_and_process_stock_data env api_key symbols w))
       = f (table w).
Proof.
  unfold fetch_and_process_stock_data.
  destruct (key_missing api_key);
    [exists (fun t => t); split; [apply keeps_id | reflexivity] |].
  destruct (process_symbols_full env symbols 0 (mkCounters 0 0))
    as (r & lg & rq & f & H & K & _).
  exists f. split; [exact K |].
  unfold mbind. rewrite H. now destruct r.
Qed.

(** X14. A run never harms the table, whether it completes or is cut
    short: the primary key still holds, every key that had a row has one,
    and the row of a key keeps its time zone and its creation mark. *)
Theorem run_keeps_the_rows
        (env : environment) (api_key : string) (symbols : list string) (w : world) :
  let w' := snd (fetch_and_process_stock_data env api_key symbols w) in
  (keys_unique (table w) -> keys_unique (table w'))
  /\ (forall k, In k (keys (table w)) -> In k (keys (table w')))
  /\ (forall o r0, rows_of o (table w) = [r0] ->
                   exists r, rows_of o (table w') = [r] /\ same_marks r r0).
Proof.
  destruct (run_table env api_key symbols w) as (f & K & E).
  cbv zeta. rewrite E. exact (K (table w)).
Qed.

Lemma process_symbols_blank (env : environment) (symbols : list string) :
  Forall (fun entry => blank entry = true) symbols ->
  forall i c w, process_symbols env i symbols c w = (Ok c, w).
Proof.
  induction 1 as [| entry rest Hb _ IH]; intros i c w; simpl; [reflexivity |].
  unfold mbind, process_symbol. fold (normalize entry). fold (blank entry).
  rewrite Hb. apply IH.
Qed.

(** X15. A list without symbols, empty or made of blank entries, is run
    to the end without a request: the table is left as it is and the one
    record written is the summary, with no success and no record against
    the length of the list. *)
Theorem run_over_blank_entries
        (env : environment) (api_key : string) (symbols : list string) (w : world)
        (Hkey : key_missing api_key = false)
        (Hblank : Forall (fun entry => blank entry = true) symbols) :
  fetch_and_process_stock_data env api_key symbols w
  = (Ok tt, mkWorld (table w)
                    (log w ++ [(INFO, PipelineCompleted 0 (length symbols) 0)])
                    (requests w)).
Proof.
  unfold fetch_and_process_stock_data, mbind. rewrite Hkey.
  now rewrite (process_symbols_blank env symbols Hblank).
Qed.

(** X16. With a configured key, the run completes exactly when every
    entry that is not blank gets an answer on which the fetch returns.
    The exception that cuts a run short is that of the first fetch that
    raises: the [TypeError] of a decoded body that is not a dict, or the
    exception of the library that the fetch did not catch. The parser and
    the store raise none. *)
Theorem run_completes_iff_fetches_return
        (env : environment) (api_key : string) (symbols : list string) (w : world)
        (Hkey : key_missing api_key = false) :
  (fst (fetch_and_process_stock_data env api_key symbols w) = Ok tt
   <-> all_fetch_safe env 0 symbols = true)
  /\ (forall e,
        fst (fetch_and_process_stock_data env api_key symbols w) = Raise e
        <-> first_fault env 0 symbols = Some e).
Proof.
  destruct (process_symbols_full env symbols 0 (mkCounters 0 0))
    as (r & lg & rq & f & H & _ & R).
  assert (E : fst (fetch_and_process_stock_data env api_key symbols w)
              = match r with Ok _ => Ok tt | Raise e => Raise e end).
  { unfold fetch_and_process_stock_data, mbind, logger. rewrite Hkey, H.
    now destruct r. }
  rewrite E. destruct r as [c | e].
  - destruct R as (_ & Hs & _). rewrite Hs.
    apply first_fault_none in Hs. rewrite Hs.
    split; [split; reflexivity | intros e; split; intros H'; discriminate H'].
  - destruct R as (-> & ->).
    split; [split; intros H'; discriminate H' |].
    intros e'; split; intros H'; now injection H' as <-.
Qed.

Lemma parse_non_dict (sym : string) (raw : value) :
  (forall d, raw <> VDict d) -> eval (parse_stock_data sym raw) = Ok [].
Proof.
  intros H. destruct raw; try reflexivity. now contradiction (H d).
Qed.

(** X7. A decoded body that is a list or a string comes to nothing: when
    the fetch returns on it, the iteration makes its one request, stores
    nothing and leaves the counters and the table as they were. *)
Theorem non_dict_body_contributes_nothing
        (env : environment) (i : nat) (entry : string) (raw : value)
        (c : counters) (w : world)
        (Hentry : blank entry = false)
        (Hanswer : http env i (normalize entry) = Json raw)
        (Hraw : forall d, raw <> VDict d)
        (Hsafe : fetch_safe (Json raw) = true) :
  contribution env i entry = None
  /\ exists lg,
       process_symbol env i entry c w
       = (Ok c, mkWorld (table w) (log w ++ lg) (requests w ++ [normalize entry])).
Proof.
  assert (Hc : contribution env i entry = None).
  { unfold contribution. rewrite Hentry, Hanswer.
    pose proof (fetch_cases (Json raw) (normalize entry) empty_world) as Hf.
    unfold eval.
    destruct (fst (fetch_stock_data (Json raw) (normalize entry) empty_world))
      as [v | e]; [| reflexivity].
    destruct Hf as [-> | (E & _)]; [reflexivity |].
    injection E as <-.
    destruct (truthy raw); [| reflexivity].
    fold (eval (parse_stock_data (normalize entry) raw)).
    now rewrite (parse_non_dict _ raw Hraw). }
  split; [exact Hc |].
  destruct (process_symbol_full env i entry c) as (r & lg & f & H & _ & Hid & R).
  rewrite Hentry in H. exists lg. rewrite H, (Hid Hc).
  destruct r as [c' | e].
  - destruct R as (-> & _). now rewrite Hc.
  - destruct R as (_ & R). rewrite Hentry, Hanswer, Hsafe in R. discriminate.
Qed.

(** ** The scheduled task *)

Lemma split_chars_nonempty (sep : ascii) (l : list ascii) :
  exists p ps, split_chars sep l = p :: ps.
Proof.
  induction l as [| c l (p & ps & E)]; simpl; [eauto |].
  rewrite E. destruct (Ascii.eqb c sep); eauto.
Qed.

Lemma split_chars_cons (sep c : ascii) (l : list ascii) :
  exists p ps,
    split_chars sep l = p :: ps
    /\ split_chars sep (c :: l)
       = if Ascii.eqb c sep then [] :: p :: ps else (c :: p) :: ps.
Proof.
  destruct (split_chars_nonempty sep l) as (p & ps & E).
  exists p, ps. split; [exact E |]. simpl. now rewrite E.
Qed.

Lemma split_chars_length (sep : ascii) (l : list ascii) :
  length (split_chars sep l) = S (length (filter (Ascii.eqb sep) l)).
Proof.
  induction l as [| c l IH]; [reflexivity |].
  destruct (split_chars_cons sep c l) as (p & ps & E & ->).
  rewrite E in IH. rewrite (Ascii.eqb_sym c sep). simpl filter.
  destruct (Ascii.eqb sep c); simpl in *; lia.
Qed.

Lemma split_chars_pieces (sep : ascii) (l : list ascii) :
  Forall (Forall (fun c => In c l /\ Ascii.eqb c sep = false))
         (split_chars sep l).
Proof.
  induction l as [| c l IH]; [repeat constructor |].
  assert (Hl : Forall (Forall (fun x => In x (c :: l) /\ Ascii.eqb x sep = false))
                      (split_chars sep l)).
  { revert IH. apply Forall_impl. intros p. apply Forall_impl.
    intros x (Hx & E). split; [now right | exact E]. }
  destruct (split_chars_cons sep c l) as (p & ps & E & ->).
  rewrite E in Hl. inversion Hl as [| ? ? Hp Hps]; subst.
  destruct (Ascii.eqb c sep) eqn:Ec.
  - constructor; [constructor | now constructor].
  - constructor; [| assumption].
    constructor; [split; [now left | exact Ec] | assumption].
Qed.

Lemma filter_no_separator (sep : ascii) (l p : list ascii) :
  Forall (fun c => In c l /\ Ascii.eqb c sep = false) p ->
  filter (Ascii.eqb sep) p = [].
Proof.
  induction 1 as [| c p (_ & Hc) _ IH]; [reflexivity |].
  cbn [filter]. now rewrite (Ascii.eqb_sym sep c), Hc.
Qed.

Lemma split_string (sep c : ascii) (s : string) :
  exists p ps,
    split sep s = p :: ps
    /\ split sep (String c s)
       = if Ascii.eqb c sep then "" :: p :: ps else String c p :: ps.
Proof.
  unfold split. simpl list_ascii_of_string.
  destruct (split_chars_cons sep c (list_ascii_of_string s)) as (p & ps & E & ->).
  rewrite E. eexists _, _. split; [reflexivity |].
  now destruct (Ascii.eqb c sep).
Qed.

Lemma split_concat (sep : ascii) (s : string) :
  String.concat (String sep "") (split sep s) = s.
Proof.
  induction s as [| c s IH]; [reflexivity |].
  destruct (split_string sep c s) as (p & ps & E & ->).
  rewrite E in IH.
  destruct (Ascii.eqb c sep) eqn:Ec.
  - apply Ascii.eqb_eq in Ec as ->.
    change (String.concat (String sep "") ("" :: p :: ps))
      with (String sep (String.concat (String sep "") (p :: ps))).
    now rewrite IH.
  - destruct ps as [| q ps]; simpl in *; now rewrite IH.
Qed.

(** X17. The list of symbols of the task is the variable cut at its
    commas: it has one entry more than the variable has commas, so it is
    never empty; no entry holds a comma; and the entries joined by commas
    give the variable back. Without the variable the list is [AAPL]. *)
Theorem symbols_are_the_pieces_between_commas (vars : environ) :
  let v := getenv_default vars "STOCK_SYMBOLS" "AAPL" in
  length (symbols_of vars) = S (occurrences "," v)
  /\ Forall (fun entry => occurrences "," entry = 0%nat) (symbols_of vars)
  /\ String.concat "," (symbols_of vars) = v
  /\ (vars "STOCK_SYMBOLS" = None -> symbols_of vars = ["AAPL"]).
Proof.
  cbv zeta. unfold symbols_of, occurrences.
  set (v := getenv_default vars "STOCK_SYMBOLS" "AAPL").
  split; [unfold split; rewrite length_map; apply split_chars_length |].
  split.
  - unfold split. apply Forall_map.
    pose proof (split_chars_pieces "," (list_ascii_of_string v)) as H.
    revert H. apply Forall_impl. intros p Hp.
    rewrite list_ascii_of_string_of_list_ascii.
    now rewrite (filter_no_separator _ _ _ Hp).
  - split; [apply split_concat |].
    intros H. unfold v, getenv_default. now rewrite H.
Qed.

Lemma symbols_length (vars : environ) :
  length (symbols_of vars)
  = S (occurrences "," (getenv_default vars "STOCK_SYMBOLS" "AAPL")).
Proof.
  unfold symbols_of, split, occurrences. rewrite length_map.
  apply split_chars_length.
Qed.

(** X18. The total of the summary of the task counts the commas: a task
    with a configured key that completes reports its successes against one
    more than the number of commas of the variable, whatever stands
    between them. *)
Theorem task_summary_counts_commas
        (env : environment) (vars : environ) (api_key : string) (w w' : world)
        (Hset : api_key_of vars = Some api_key)
        (Hkey : key_missing api_key = false)
        (Hrun : fetch_data_task env vars w = (Ok tt, w')) :
  exists lg successful records,
    log w'
    = (log w ++ lg
         ++ [(INFO, PipelineCompleted
                      successful
                      (S (occurrences "," (getenv_default vars "STOCK_SYMBOLS" "AAPL")))
                      records)])%list.
Proof.
  unfold fetch_data_task in Hrun. rewrite Hset in Hrun.
  unfold fetch_and_process_stock_data in Hrun. rewrite Hkey in Hrun.
  destruct (process_symbols_full env (symbols_of vars) 0 (mkCounters 0 0))
    as (r & lg & rq & f & H & _ & _).
  unfold mbind in Hrun. rewrite H in Hrun.
  destruct r as [c | e]; [| discriminate].
  unfold logger in Hrun. simpl in Hrun. injection Hrun as <-.
  exists lg, (successful_symbols c), (total_records c).
  rewrite <- symbols_length. simpl. now rewrite app_assoc.
Qed.

Lemma trim_blank (l : list ascii) :
  Forall (fun c => is_space c = true) l -> trim is_space l = [].
Proof.
  intros H. unfold trim.
  assert (E : drop_while is_space l = []).
  { induction H as [| c l Hc _ IH]; [reflexivity |]. simpl. now rewrite Hc. }
  now rewrite E.
Qed.

(** X19. A variable of blanks and commas names no symbol: the task then
    requests nothing, not even the default symbol, leaves the table as it
    is, and logs the summary alone, with no success against one more than
    the number of commas. The empty variable is the first case. *)
Theorem task_with_blank_variable
        (env : environment) (vars : environ) (api_key s : string) (w : world)
        (Hset : api_key_of vars = Some api_key)
        (Hkey : key_missing api_key = false)
        (Hvar : vars "STOCK_SYMBOLS" = Some s)
        (Hblank : forallb (fun c => Ascii.eqb c "," || is_space c)
                          (list_ascii_of_string s) = true) :
  fetch_data_task env vars w
  = (Ok tt, mkWorld (table w)
                    (log w ++ [(INFO, PipelineCompleted 0 (S (occurrences "," s)) 0)])
                    (requests w)).
Proof.
  assert (Hs : symbols_of vars = split "," s).
  { unfold symbols_of, getenv_default. now rewrite Hvar. }
  assert (Hall : Forall (fun entry => blank entry = true) (split "," s)).
  { unfold split. apply Forall_map.
    pose proof (split_chars_pieces "," (list_ascii_of_string s)) as H.
    revert H. apply Forall_impl. intros p Hp.
    unfold blank, normalize, strip.
    rewrite list_ascii_of_string_of_list_ascii, trim_blank; [reflexivity |].
    revert Hp. apply Forall_impl. intros c (Hc & Ec).
    rewrite forallb_forall in Hblank. specialize (Hblank c Hc).
    now rewrite Ec in Hblank. }
  assert (Hlen : length (split "," s) = S (occurrences "," s)).
  { rewrite <- Hs, symbols_length. unfold getenv_default. now rewrite Hvar. }
  unfold fetch_data_task. rewrite Hset.
  unfold fetch_and_process_stock_data, mbind. rewrite Hkey, Hs.
  rewrite (process_symbols_blank env _ Hall), Hlen. reflexivity.
Qed.

(** ** The further properties on the samples *)

Lemma fetch_returns_none_or_clean_body_witness :
  (VDict body_two_bars = VNone
   \/ (Json (VDict body_two_bars) = Json (VDict body_two_bars)
       /\ contains "Error Message" (VDict body_two_bars) = Ok false
       /\ contains "Note" (VDict body_two_bars) = Ok false))
  /\ raised_by (Json (VInt 7)) TypeError
  /\ fst (fetch_stock_data (OtherRaises RecursionError) "AAPL" empty_world)
     = Raise RecursionError.
Proof.
  split; [| split].
  - apply (proj1 (fetch_returns_none_or_clean_body
                    (Json (VDict body_two_bars)) "AAPL" empty_world)).
    reflexivity.
  - apply (proj1 (proj2 (fetch_returns_none_or_clean_body
                           (Json (VInt 7)) "AAPL" empty_world))).
    reflexivity.
  - apply (proj2 (proj2 (fetch_returns_none_or_clean_body
                           (OtherRaises RecursionError) "AAPL" empty_world))
             RecursionError).
    + reflexivity.
    + discriminate.
    + discriminate.
Defined.

Lemma fetch_logs_error_before_note_witness :
  fetch_stock_data (Json (VDict body_error_and_note)) "AAPL" empty_world
  = (Ok VNone,
     mkWorld [] [(ERROR, ApiError "AAPL" (VStr "Invalid API call."))] ["AAPL"])
  /\ fetch_stock_data (Json (VDict [("Note", VStr "Please slow down.")])) "AAPL"
                      empty_world
     = (Ok VNone,
        mkWorld [] [(WARNING, RateLimitNote "AAPL" (VStr "Please slow down."))]
                ["AAPL"]).
Proof.
  split.
  - apply (proj1 (fetch_logs_error_before_note body_error_and_note "AAPL"
                    empty_world (VStr "Invalid API call."))).
    reflexivity.
  - apply (proj2 (fetch_logs_error_before_note
                    [("Note", VStr "Please slow down.")] "AAPL"
                    empty_world (VStr "Please slow down."))); reflexivity.
Defined.

Lemma parse_returns_or_warns_witness :
  exists d entries lg,
    VDict body_one_bad = VDict d
    /\ section "Time Series (60min)" d = VDict entries
    /\ parse_stock_data "AAPL" (VDict body_one_bad) empty_world
       = (Ok [bar_four_pm; bar_two_pm],
          mkWorld [] [(WARNING, DataPointFailed "AAPL" "2024-01-05 15:00:00"
                                                ValueError)] [])
    /\ mkWorld [] [(WARNING, DataPointFailed "AAPL" "2024-01-05 15:00:00"
                                             ValueError)] []
       = mkWorld [] ([] ++ lg) []
    /\ (2 + length lg = length entries)%nat
    /\ Forall (skip_warning "AAPL" (map fst entries)) lg.
Proof.
  apply (parse_returns_or_warns "AAPL" (VDict body_one_bad) empty_world
           (mkWorld [] [(WARNING, DataPointFailed "AAPL" "2024-01-05 15:00:00"
                                                  ValueError)] [])
           [bar_four_pm; bar_two_pm]).
  reflexivity.
Defined.

Lemma parse_discards_all_on_bad_entry_witness :
  exists x lg,
    parse_stock_data "AAPL" (VDict body_string_entry) empty_world
    = (Ok [], mkWorld [] ([] ++ lg ++ [(ERROR, ParseFailed "AAPL" x)]) []).
Proof.
  apply (parse_discards_all_on_bad_entry "AAPL" body_string_entry
           [("2024-01-05 16:00:00", bar "1.5" "2.5" "1.0" "2.0" "100");
            ("2024-01-05 15:00:00", VStr "n/a")]
           "2024-01-05 15:00:00" (VStr "n/a") (mkDatetime 2024 1 5 15 0 0)
           empty_world).
  - reflexivity.
  - right. left. reflexivity.
  - reflexivity.
  - discriminate.
Defined.

Lemma non_dict_body_contributes_nothing_witness :
  contribution array_env 0 "ibm" = None
  /\ exists lg,
       process_symbol array_env 0 "ibm" (mkCounters 0 0) empty_world
       = (Ok (mkCounters 0 0), mkWorld [] ([] ++ lg) ([] ++ ["IBM"])).
Proof.
  apply (non_dict_body_contributes_nothing array_env 0 "ibm"
           (VList [VInt 1; VInt 2]) (mkCounters 0 0) empty_world).
  - reflexivity.
  - reflexivity.
  - discriminate.
  - reflexivity.
Defined.

Lemma store_again_changes_nothing_witness :
  table after_batch_again = table after_batch.
Proof.
  apply (store_again_changes_nothing (session_ok 30) (session_ok 40)
           [bar_four_pm; bar_two_pm] world_msft after_batch after_batch_again).
  - repeat constructor. intros [].
  - reflexivity.
  - reflexivity.
Defined.

Lemma store_leaves_other_keys_witness :
  rows_of bar_msft (table after_batch) = rows_of bar_msft (table world_msft).
Proof.
  apply (store_leaves_other_keys (session_ok 30) [bar_four_pm; bar_two_pm]
           bar_msft world_msft).
  repeat constructor; discriminate.
Defined.

Lemma store_keeps_time_zone_and_created_at_witness :
  exists r,
    rows_of second_write (table after_second) = [r]
    /\ time_zone_col (cells r) = Reading eastern
    /\ created_at r = 10
    /\ row_key r = ("AAPL", four_pm).
Proof.
  apply (store_keeps_time_zone_and_created_at (session_ok 20) [second_write]
           second_write (mkRow (columns first_write) 10) after_first).
  reflexivity.
Defined.

Lemma store_inserts_new_key_witness :
  rows_of bar_two_pm (table after_batch) = [mkRow (columns bar_two_pm) 30].
Proof.
  apply (store_inserts_new_key (session_ok 30) [bar_four_pm] [] bar_two_pm
           world_msft after_batch).
  - reflexivity.
  - repeat constructor. discriminate.
  - constructor.
  - reflexivity.
Defined.

Lemma store_adds_the_keys_of_the_batch_witness :
  (forall k, In k (keys (table after_batch))
             <-> In k (keys (table world_msft))
                 \/ In k (map key_of [bar_four_pm; bar_two_pm]))
  /\ (1 <= length (table after_batch) <= 1 + 2)%nat
  /\ (keys_unique (table world_msft) -> keys_unique (table after_batch)).
Proof.
  apply (store_adds_the_keys_of_the_batch (session_ok 30)
           [bar_four_pm; bar_two_pm] world_msft after_batch).
  reflexivity.
Defined.

Lemma summary_counters_are_bounded_witness :
  (exists lg,
     log after_run = ([] ++ lg ++ [(INFO, PipelineCompleted 1 3 2)])%list)
  /\ (1 <= 2 <= 3)%nat
  /\ (1 <= 2)%nat.
Proof.
  apply (summary_counters_are_bounded sample_env "demo" ["aapl "; " "; "MSFT"]
           empty_world after_run); reflexivity.
Defined.

Lemma run_keeps_the_rows_witness :
  keys_unique
    (table (snd (fetch_and_process_stock_data sample_env "demo"
                   ["aapl"; "ibm"; "msft"] world_msft)))
  /\ exists r,
       rows_of bar_msft
         (table (snd (fetch_and_process_stock_data sample_env "demo"
                        ["aapl"; "ibm"; "msft"] world_msft))) = [r]
       /\ same_marks r (mkRow (columns bar_msft) 5).
Proof.
  pose proof (run_keeps_the_rows sample_env "demo" ["aapl"; "ibm"; "msft"]
                world_msft) as (H1 & _ & H3).
  split.
  - apply H1. repeat constructor. intros [].
  - apply H3. reflexivity.
Defined.

Lemma run_over_blank_entries_witness :
  fetch_and_process_stock_data sample_env "demo" [" "; ""; "   "] world_msft
  = (Ok tt, mkWorld [mkRow (columns bar_msft) 5] [(INFO, PipelineCompleted 0 3 0)] []).
Proof.
  apply (run_over_blank_entries sample_env "demo" [" "; ""; "   "] world_msft).
  - reflexivity.
  - repeat constructor.
Defined.

Lemma run_completes_iff_fetches_return_witness :
  (fst (fetch_and_process_stock_data nested_env "demo" ["aapl"; "ibm"] empty_world)
   = Ok tt
   <-> all_fetch_safe nested_env 0 ["aapl"; "ibm"] = true)
  /\ (forall e,
        fst (fetch_and_process_stock_data nested_env "demo" ["aapl"; "ibm"]
                                          empty_world) = Raise e
        <-> first_fault nested_env 0 ["aapl"; "ibm"] = Some e).
Proof.
  apply (run_completes_iff_fetches_return nested_env "demo" ["aapl"; "ibm"]
           empty_world).
  reflexivity.
Defined.

(** The run over the answer nested too deep: the first symbol is stored,
    the exception of the decoder leaves the run at the second, and no
    summary is logged. *)
Example nested_body_aborts_the_run :
  first_fault nested_env 0 ["aapl"; "ibm"] = Some RecursionError
  /\ fst (fetch_and_process_stock_data nested_env "demo" ["aapl"; "ibm"]
                                       empty_world)
     = Raise RecursionError
  /\ summaries (log (snd (fetch_and_process_stock_data nested_env "demo"
                            ["aapl"; "ibm"] empty_world)))
     = [].
Proof. repeat split. Qed.

Lemma symbols_are_the_pieces_between_commas_witness :
  symbols_of (fun _ => None) = ["AAPL"]
  /\ length (symbols_of sample_vars) = 3%nat.
Proof.
  split.
  - apply (proj2 (proj2 (proj2 (symbols_are_the_pieces_between_commas
                                  (fun _ => None))))).
    reflexivity.
  - apply (proj1 (symbols_are_the_pieces_between_commas sample_vars)).
Defined.

Lemma task_summary_counts_commas_witness :
  exists lg successful records,
    log (snd (fetch_data_task sample_env sample_vars empty_world))
    = ([] ++ lg ++ [(INFO, PipelineCompleted successful 3 records)])%list.
Proof.
  apply (task_summary_counts_commas sample_env sample_vars "demo" empty_world
           (snd (fetch_data_task sample_env sample_vars empty_world)));
    reflexivity.
Defined.

Lemma task_with_blank_variable_witness :
  fetch_data_task sample_env blank_vars world_msft
  = (Ok tt, mkWorld [mkRow (columns bar_msft) 5] [(INFO, PipelineCompleted 0 3 0)] []).
Proof.
  apply (task_with_blank_variable sample_env blank_vars "demo" " , ," world_msft);
    reflexivity.
Defined.
